(** * AuthenticationService (api/src/services/authentication.ts)

    A shallow embedding of [login], [refresh], [logout] and
    [verifyPassword] as programs of a state-and-exception monad over a
    world that holds the record store, the rate limiter, a clock, the
    random-token supply and the trace of calls made on the collaborators.

    The collaborators that live outside the service (auth providers, the
    hook emitter, the settings service, the second-factor service, the
    signer, the token generator, the environment) are fields of an
    environment [Env]; each of them may fail.  The record store is the
    tables the service reads and writes; every awaited query, the reset of
    the limiter and the signer can reject as well, as a plan of faults
    [Faults] says, and [login], [refresh], [logout] and [verifyPassword]
    are the service under the plan without faults.  Time is a clock in
    milliseconds that every awaited operation advances by its latency. *)

From Stdlib Require Import ZArith Ascii String List Lia.
From stdpp Require Import base decidable option list strings countable gmap.

Open Scope string_scope.
Open Scope Z_scope.
Open Scope list_scope.

(** ** JavaScript values *)

Inductive Value :=
| VUndefined
| VNull
| VBool (b : bool)
| VNum (n : Z)
| VStr (s : string).

#[global] Instance Value_eq_dec : EqDecision Value.
Proof. solve_decision. Defined.

Definition Value_code (v : Value) : unit + unit + bool + Z + string :=
  match v with
  | VUndefined => inl (inl (inl (inl tt)))
  | VNull => inl (inl (inl (inr tt)))
  | VBool b => inl (inl (inr b))
  | VNum n => inl (inr n)
  | VStr s => inr s
  end.

Definition Value_decode (c : unit + unit + bool + Z + string) : Value :=
  match c with
  | inl (inl (inl (inl _))) => VUndefined
  | inl (inl (inl (inr _))) => VNull
  | inl (inl (inr b)) => VBool b
  | inl (inr n) => VNum n
  | inr s => VStr s
  end.

#[global] Instance Value_countable : Countable Value.
Proof.
  refine (inj_countable' Value_code Value_decode _).
  intros []; reflexivity.
Defined.

(** Truthiness, as [if (v)] and [!v] see it. *)
Definition truthy (v : Value) : bool :=
  match v with
  | VUndefined | VNull => false
  | VBool b => b
  | VNum n => negb (n =? 0)
  | VStr EmptyString => false
  | VStr _ => true
  end.

(** An optional string argument ([otp?: string]). *)
Definition truthy_arg (o : option string) : bool :=
  match o with
  | Some s => truthy (VStr s)
  | None => false
  end.

(** A flat object: a row returned by a query, or a credential payload. *)
Definition Obj := list (string * Value).

Fixpoint prop (k : string) (o : Obj) : Value :=
  match o with
  | [] => VUndefined
  | (k', v) :: o' => if String.eqb k k' then v else prop k o'
  end.

(** [o.k = v] *)
Fixpoint prop_set (k : string) (v : Value) (o : Obj) : Obj :=
  match o with
  | [] => [(k, v)]
  | (k', v') :: o' =>
      if String.eqb k k' then (k', v) :: o' else (k', v') :: prop_set k v o'
  end.

(** [o?.k] *)
Definition opt_prop (k : string) (o : option Obj) : Value :=
  match o with
  | Some o => prop k o
  | None => VUndefined
  end.

(** Objects with nesting: the token payload and the claims to sign. *)
#[warnings="-register-all"]
Inductive Json :=
| JVal (v : Value)
| JObj (fields : list (string * Json)).

Fixpoint fields_set (k : string) (v : Json) (fs : list (string * Json))
  : list (string * Json) :=
  match fs with
  | [] => [(k, v)]
  | (k', v') :: fs' =>
      if String.eqb k k' then (k', v) :: fs' else (k', v') :: fields_set k v fs'
  end.

Definition json_set (k : string) (v : Json) (j : Json) : Json :=
  match j with
  | JObj fs => JObj (fields_set k v fs)
  | JVal _ => j
  end.

(** ** Exceptions *)

Inductive Exn :=
| InvalidCredentialsException
| UserSuspendedException
| InvalidOTPException (message : string)
| ConfigurationError
| RateLimitExceeded
| TypeError
| ServiceError (message : string).

Inductive Result (A : Type) :=
| Ok (a : A)
| Throw (e : Exn).
Arguments Ok {A} a.
Arguments Throw {A} e.

(** ** The record store *)

Record UserRow := {
  u_id : Value;
  u_first_name : Value;
  u_last_name : Value;
  u_email : Value;
  u_password : Value;
  u_status : Value;
  u_role : Value;
  u_tfa_secret : Value;
  u_provider : Value;
  u_external_identifier : Value;
  u_auth_data : Value;
  u_last_access : Value
}.

Record RoleRow := {
  r_id : Value;
  r_admin_access : Value;
  r_app_access : Value
}.

Record SessionRow := {
  s_token : string;
  s_user : Value;
  s_share : Value;
  s_expires : Z;
  s_ip : Value;
  s_user_agent : Value
}.

Record ShareRow := {
  d_id : Value;
  d_collection : Value;
  d_item : Value;
  d_role : Value;
  d_date_expired : Value;
  d_times_used : Value;
  d_max_uses : Value
}.

Record ActivityRow := {
  a_action : string;
  a_user : Value;
  a_ip : Value;
  a_user_agent : Value;
  a_collection : string;
  a_item : Value
}.

(** SQL equality: a comparison with NULL is never true. *)
Definition sql_eq (a b : Value) : Prop :=
  a <> VNull /\ b <> VNull /\ a = b.

#[global] Instance sql_eq_dec a b : Decision (sql_eq a b).
Proof. unfold sql_eq. apply _. Defined.

(** SQL [col >= now] on a nullable timestamp column. *)
Definition sql_ge (a : Value) (now : Z) : Prop :=
  match a with
  | VNum t => now <= t
  | _ => False
  end.

#[global] Instance sql_ge_dec a now : Decision (sql_ge a now).
Proof. destruct a; simpl; apply _. Defined.

Definition inner_join {A B : Type} (on : A -> B -> Prop)
    `{forall a b, Decision (on a b)} (l : list A) (r : list B) : list (A * B) :=
  flat_map (fun a => map (pair a) (filter (on a) r)) l.

Definition left_join {A B : Type} (on : A -> B -> Prop)
    `{forall a b, Decision (on a b)} (l : list A) (r : list B)
  : list (A * option B) :=
  flat_map (fun a =>
    match filter (on a) r with
    | [] => [(a, None)]
    | bs => map (fun b => (a, Some b)) bs
    end) l.

(** [.first()] *)
Definition first {A : Type} (l : list A) : option A := head l.

(** A column of the nullable side of a left join. *)
Definition col {A : Type} (f : A -> Value) (o : option A) : Value :=
  match o with
  | Some a => f a
  | None => VNull
  end.

(** ** Calls, events and the world *)

(** The awaited operations; each takes the time [latency] gives it. *)
Inductive Op :=
| OpGetUserID
| OpSelect
| OpEmitFilter
| OpReadSingleton
| OpLimiter
| OpUpdate
| OpProviderLogin
| OpProviderRefresh
| OpProviderLogout
| OpProviderVerify
| OpVerifyOTP
| OpInsert
| OpDelete
| OpCreateActivity.

(** The second argument of [emitter.emitFilter]. *)
Record Meta := {
  m_status : string;
  m_user : Value;
  m_provider : Value;
  m_type : option string
}.

Inductive Event :=
| EvGetUserID (provider : Value) (payload : Obj)
| EvFilterLogin (payload : Obj) (meta : Meta)
| EvFilterJwt (payload : Json) (meta : Meta)
| EvAction (payload : Obj) (status : string) (user : Value) (provider : string)
| EvReadSingleton
| EvProviderLogin (provider : Value) (user : Obj) (payload : Obj)
| EvProviderRefresh (provider : Value) (user : Obj)
| EvProviderLogout (provider : Value) (user : Obj)
| EvProviderVerify (provider : Value) (user : Obj) (password : string)
| EvVerifyOTP (user : Value) (otp : string)
| EvStall (ms : Z) (start : Z).

Definition is_stall (e : Event) : bool :=
  match e with
  | EvStall _ _ => true
  | _ => false
  end.

Definition is_provider_login (e : Event) : bool :=
  match e with
  | EvProviderLogin _ _ _ => true
  | _ => false
  end.

(** How many times the timing normalizer was entered. *)
Definition stalls (evs : list Event) : nat :=
  length (List.filter is_stall evs).

Record World := {
  directus_users : list UserRow;
  directus_roles : list RoleRow;
  directus_sessions : list SessionRow;
  directus_shares : list ShareRow;
  directus_activity : list ActivityRow;
  limiter_points : Z;
  limiter_consumed : gmap Value Z;
  clock : Z;
  rng : nat;
  trace : list Event
}.

Definition set_users (f : list UserRow -> list UserRow) (w : World) : World :=
  {| directus_users := f (directus_users w);
     directus_roles := directus_roles w;
     directus_sessions := directus_sessions w;
     directus_shares := directus_shares w;
     directus_activity := directus_activity w;
     limiter_points := limiter_points w;
     limiter_consumed := limiter_consumed w;
     clock := clock w; rng := rng w; trace := trace w |}.

Definition set_sessions (f : list SessionRow -> list SessionRow) (w : World)
  : World :=
  {| directus_users := directus_users w;
     directus_roles := directus_roles w;
     directus_sessions := f (directus_sessions w);
     directus_shares := directus_shares w;
     directus_activity := directus_activity w;
     limiter_points := limiter_points w;
     limiter_consumed := limiter_consumed w;
     clock := clock w; rng := rng w; trace := trace w |}.

Definition set_activity (f : list ActivityRow -> list ActivityRow) (w : World)
  : World :=
  {| directus_users := directus_users w;
     directus_roles := directus_roles w;
     directus_sessions := directus_sessions w;
     directus_shares := directus_shares w;
     directus_activity := f (directus_activity w);
     limiter_points := limiter_points w;
     limiter_consumed := limiter_consumed w;
     clock := clock w; rng := rng w; trace := trace w |}.

Definition set_points (p : Z) (w : World) : World :=
  {| directus_users := directus_users w;
     directus_roles := directus_roles w;
     directus_sessions := directus_sessions w;
     directus_shares := directus_shares w;
     directus_activity := directus_activity w;
     limiter_points := p;
     limiter_consumed := limiter_consumed w;
     clock := clock w; rng := rng w; trace := trace w |}.

Definition set_consumed (f : gmap Value Z -> gmap Value Z) (w : World) : World :=
  {| directus_users := directus_users w;
     directus_roles := directus_roles w;
     directus_sessions := directus_sessions w;
     directus_shares := directus_shares w;
     directus_activity := directus_activity w;
     limiter_points := limiter_points w;
     limiter_consumed := f (limiter_consumed w);
     clock := clock w; rng := rng w; trace := trace w |}.

Definition set_clock (t : Z) (w : World) : World :=
  {| directus_users := directus_users w;
     directus_roles := directus_roles w;
     directus_sessions := directus_sessions w;
     directus_shares := directus_shares w;
     directus_activity := directus_activity w;
     limiter_points := limiter_points w;
     limiter_consumed := limiter_consumed w;
     clock := t; rng := rng w; trace := trace w |}.

Definition set_rng (n : nat) (w : World) : World :=
  {| directus_users := directus_users w;
     directus_roles := directus_roles w;
     directus_sessions := directus_sessions w;
     directus_shares := directus_shares w;
     directus_activity := directus_activity w;
     limiter_points := limiter_points w;
     limiter_consumed := limiter_consumed w;
     clock := clock w; rng := n; trace := trace w |}.

Definition add_event (e : Event) (w : World) : World :=
  {| directus_users := directus_users w;
     directus_roles := directus_roles w;
     directus_sessions := directus_sessions w;
     directus_shares := directus_shares w;
     directus_activity := directus_activity w;
     limiter_points := limiter_points w;
     limiter_consumed := limiter_consumed w;
     clock := clock w; rng := rng w; trace := trace w ++ [e] |}.

(** The persisted records. *)
Definition store (w : World) :=
  (directus_users w, directus_roles w, directus_sessions w,
   directus_shares w, directus_activity w).

(** ** The monad of service code *)

Definition M (A : Type) : Type := World -> Result A * World.

Definition ret {A : Type} (a : A) : M A := fun w => (Ok a, w).

Definition throw {A : Type} (e : Exn) : M A := fun w => (Throw e, w).

Definition bind {A B : Type} (m : M A) (k : A -> M B) : M B :=
  fun w =>
    match m w with
    | (Ok a, w') => k a w'
    | (Throw e, w') => (Throw e, w')
    end.

(** [try { m } catch (e) { h e }] *)
Definition try_catch {A : Type} (m : M A) (h : Exn -> M A) : M A :=
  fun w =>
    match m w with
    | (Ok a, w') => (Ok a, w')
    | (Throw e, w') => h e w'
    end.

Definition gets {A : Type} (f : World -> A) : M A := fun w => (Ok (f w), w).

Definition modify (f : World -> World) : M unit := fun w => (Ok tt, f w).

Definition lift {A : Type} (r : Result A) : M A := fun w => (r, w).

Notation "x <- m ;; k" := (bind m (fun x => k))
  (at level 100, m at next level, right associativity).
Notation "m ;; k" := (bind m (fun _ => k))
  (at level 100, right associativity).

(** ** Collaborators *)

(** The capability set of an auth provider (auth drivers are not part of
    the service file); [None] from a hook means that it returned. *)
Record Provider := {
  getUserID : Obj -> Result Value;
  provider_login : Obj -> Obj -> option Exn;
  provider_refresh : Obj -> option Exn;
  provider_logout : Obj -> option Exn;
  provider_verify : Obj -> string -> option Exn
}.

(** [this.accountability] *)
Record Accountability := {
  acc_ip : Value;
  acc_userAgent : Value
}.

Record Env := {
  (** the provider registry behind [getAuthProvider] *)
  providers : Value -> option Provider;
  (** [emitter.emitFilter('auth.login', payload, meta, context)] *)
  filter_auth_login : Obj -> Meta -> Result Obj;
  (** [emitter.emitFilter('auth.jwt', tokenPayload, meta, context)] *)
  filter_auth_jwt : Json -> Meta -> Result Json;
  (** [settingsService.readSingleton({ fields: ['auth_login_attempts'] })] *)
  auth_login_attempts : Result (option Z);
  (** [tfaService.verifyOTP(user.id, otp)] *)
  verifyOTP : Value -> string -> Result bool;
  (** [jwt.sign(claims, env.SECRET, { expiresIn, issuer })] *)
  jwt_sign : Json -> string;
  (** [nanoid(64)], as a function of the draws made so far *)
  nanoid : nat -> string;
  (** [ms(env.REFRESH_TOKEN_TTL)] and [ms(env.ACCESS_TOKEN_TTL)] *)
  REFRESH_TOKEN_TTL : Z;
  ACCESS_TOKEN_TTL : Z;
  (** how long each awaited operation takes, in milliseconds *)
  latency : Op -> N;
  accountability : option Accountability
}.

Record LoginResult := {
  accessToken : string;
  refreshToken : string;
  expires : Z;
  id : Value
}.

Definition dquote : string := String "034"%char EmptyString.

(** [`"otp" is required`] and [`"otp" is invalid`] *)
Definition otp_required : string :=
  (dquote ++ "otp" ++ dquote ++ " is required")%string.
Definition otp_invalid : string :=
  (dquote ++ "otp" ++ dquote ++ " is invalid")%string.

(** The steps of the service, besides the calls on the collaborators, that
    can reject: the queries on the record store, the reset of the limiter
    and the signer. *)
Inductive Step :=
| StepSelect
| StepSuspend
| StepLimiterRestart
| StepSign
| StepInsertSession
| StepSweepSessions
| StepCreateActivity
| StepLastAccess
| StepLimiterReset
| StepRotateSession
| StepDeleteSession.

(** A plan of faults: the message of the error with which a step rejects,
    if it does. *)
Definition Faults := Step -> option string.

(** The plan without faults. *)
Definition reliable : Faults := fun _ => None.

Section Service.

Variable F : Faults.
Variable E : Env.

(** A step that rejects has no effect. *)
Definition may_fail (step : Step) : M unit :=
  match F step with
  | Some message => throw (ServiceError message)
  | None => ret tt
  end.

(** *** Time *)

(** [performance.now()] and [Date.now()] read the same clock. *)
Definition performance_now : M Z := gets clock.
Definition Date_now : M Z := gets clock.

(** The time an awaited operation takes before its promise settles. *)
Definition tick (op : Op) : M unit :=
  modify (fun w => set_clock (clock w + Z.of_N (latency E op)) w).

Definition emit (e : Event) : M unit := modify (add_event e).

(** Modelled from the spec: the timing normalizer [stall] of utils/stall,
    which is not in the source tree.  [elapsed = now - start]; if
    [elapsed < floor], the calling flow is suspended until [floor] total
    time has passed. *)
Definition stall (ms start : Z) : M unit :=
  emit (EvStall ms start) ;;
  now <- performance_now ;;
  let elapsed := now - start in
  if elapsed <? ms then modify (set_clock (start + ms)) else ret tt.

(** *** Rate limiter *)

(** Modelled from the spec: the rate limiter built by [createRateLimiter],
    which is not in the source tree.  [consume] increments the counter of
    the key and fails once the configured budget is exceeded; [set] with
    zero points zeroes the counter. *)
Definition consumed_points (key : Value) (consumed : gmap Value Z) : Z :=
  default 0 (consumed !! key).

Definition loginAttemptsLimiter_consume (key : Value) : M unit :=
  n <- gets (fun w => consumed_points key (limiter_consumed w)) ;;
  modify (set_consumed (insert key (n + 1))) ;;
  points <- gets limiter_points ;;
  tick OpLimiter ;;
  if points <? n + 1 then throw RateLimitExceeded else ret tt.

Definition loginAttemptsLimiter_set (step : Step) (key : Value) (points : Z)
  : M unit :=
  may_fail step ;;
  modify (set_consumed (insert key points)) ;;
  tick OpLimiter.

(** *** Collaborator calls *)

(** Modelled from the spec: [getAuthProvider] of the auth module, which is
    not in the source tree: [resolve(name)] fails with [ConfigurationError]
    if the name is unknown. *)
Definition getAuthProvider (name : Value) : M Provider :=
  match providers E name with
  | Some p => ret p
  | None => throw ConfigurationError
  end.

Definition hook (r : option Exn) : M unit :=
  match r with
  | None => ret tt
  | Some e => throw e
  end.

Definition call_getUserID (name : Value) (p : Provider) (payload : Obj)
  : M Value :=
  emit (EvGetUserID name payload) ;;
  tick OpGetUserID ;;
  lift (getUserID p payload).

Definition call_login (name : Value) (p : Provider) (user payload : Obj)
  : M unit :=
  emit (EvProviderLogin name user payload) ;;
  tick OpProviderLogin ;;
  hook (provider_login p user payload).

Definition call_refresh (name : Value) (p : Provider) (user : Obj) : M unit :=
  emit (EvProviderRefresh name user) ;;
  tick OpProviderRefresh ;;
  hook (provider_refresh p user).

Definition call_logout (name : Value) (p : Provider) (user : Obj) : M unit :=
  emit (EvProviderLogout name user) ;;
  tick OpProviderLogout ;;
  hook (provider_logout p user).

Definition call_verify (name : Value) (p : Provider) (user : Obj)
    (password : string) : M unit :=
  emit (EvProviderVerify name user password) ;;
  tick OpProviderVerify ;;
  hook (provider_verify p user password).

Definition emitFilter_login (payload : Obj) (meta : Meta) : M Obj :=
  emit (EvFilterLogin payload meta) ;;
  tick OpEmitFilter ;;
  lift (filter_auth_login E payload meta).

Definition emitFilter_jwt (payload : Json) (meta : Meta) : M Json :=
  emit (EvFilterJwt payload meta) ;;
  tick OpEmitFilter ;;
  lift (filter_auth_jwt E payload meta).

(** [emitter.emitAction] is not awaited. *)
Definition emitAction_login (payload : Obj) (status : string) (user : Value)
    (provider : string) : M unit :=
  emit (EvAction payload status user provider).

Definition readSingleton : M (option Z) :=
  emit EvReadSingleton ;;
  tick OpReadSingleton ;;
  lift (auth_login_attempts E).

Definition call_verifyOTP (user : Value) (otp : string) : M bool :=
  emit (EvVerifyOTP user otp) ;;
  tick OpVerifyOTP ;;
  lift (verifyOTP E user otp).

(** [jwt.sign(claims, env.SECRET, { expiresIn, issuer })] *)
Definition call_sign (claims : Json) : M string :=
  may_fail StepSign ;;
  ret (jwt_sign E claims).

Definition call_nanoid : M string :=
  n <- gets rng ;;
  modify (set_rng (S n)) ;;
  ret (nanoid E n).

(** *** Queries *)

Definition with_status (v : Value) (u : UserRow) : UserRow :=
  {| u_id := u_id u; u_first_name := u_first_name u;
     u_last_name := u_last_name u; u_email := u_email u;
     u_password := u_password u; u_status := v; u_role := u_role u;
     u_tfa_secret := u_tfa_secret u; u_provider := u_provider u;
     u_external_identifier := u_external_identifier u;
     u_auth_data := u_auth_data u; u_last_access := u_last_access u |}.

Definition with_last_access (v : Value) (u : UserRow) : UserRow :=
  {| u_id := u_id u; u_first_name := u_first_name u;
     u_last_name := u_last_name u; u_email := u_email u;
     u_password := u_password u; u_status := u_status u; u_role := u_role u;
     u_tfa_secret := u_tfa_secret u; u_provider := u_provider u;
     u_external_identifier := u_external_identifier u;
     u_auth_data := u_auth_data u; u_last_access := v |}.

Definition with_token (token : string) (expires : Z) (s : SessionRow)
  : SessionRow :=
  {| s_token := token; s_user := s_user s; s_share := s_share s;
     s_expires := expires; s_ip := s_ip s; s_user_agent := s_user_agent s |}.

(** The columns [login] selects from [directus_users as u] joined with
    [directus_roles as r]. *)
Definition login_columns (ur : UserRow * RoleRow) : Obj :=
  [ ("id", u_id ur.1);
    ("first_name", u_first_name ur.1);
    ("last_name", u_last_name ur.1);
    ("email", u_email ur.1);
    ("password", u_password ur.1);
    ("status", u_status ur.1);
    ("role", u_role ur.1);
    ("admin_access", r_admin_access ur.2);
    ("app_access", r_app_access ur.2);
    ("tfa_secret", u_tfa_secret ur.1);
    ("provider", u_provider ur.1);
    ("external_identifier", u_external_identifier ur.1);
    ("auth_data", u_auth_data ur.1) ].

Definition login_rows (uid providerName : Value) (users : list UserRow)
    (roles : list RoleRow) : list Obj :=
  map login_columns
    (filter (fun ur => sql_eq (u_id ur.1) uid /\ sql_eq (u_provider ur.1) providerName)
       (inner_join (fun u r => sql_eq (u_role u) (r_id r)) users roles)).

Definition select_login_user (uid providerName : Value) : M (option Obj) :=
  may_fail StepSelect ;;
  rows <- gets (fun w =>
    login_rows uid providerName (directus_users w) (directus_roles w)) ;;
  tick OpSelect ;;
  ret (first rows).

(** The aliases [refresh] selects from [directus_sessions AS s] left-joined
    with users [u], shares [d] and roles [r]. *)
Definition refresh_columns
    (row : SessionRow * option UserRow * option ShareRow * option RoleRow)
  : Obj :=
  let '(s, u, d, r) := row in
  [ ("session_expires", VNum (s_expires s));
    ("user_id", col u_id u);
    ("user_first_name", col u_first_name u);
    ("user_last_name", col u_last_name u);
    ("user_email", col u_email u);
    ("user_password", col u_password u);
    ("user_status", col u_status u);
    ("user_provider", col u_provider u);
    ("user_external_identifier", col u_external_identifier u);
    ("user_auth_data", col u_auth_data u);
    ("role_id", col r_id r);
    ("role_admin_access", col r_admin_access r);
    ("role_app_access", col r_app_access r);
    ("share_id", col d_id d);
    ("share_item", col d_item d);
    ("share_collection", col d_collection d);
    ("share_expires", col d_date_expired d);
    ("share_times_used", col d_times_used d);
    ("share_max_uses", col d_max_uses d) ].

Definition refresh_joined (sessions : list SessionRow) (users : list UserRow)
    (shares : list ShareRow) (roles : list RoleRow)
  : list (SessionRow * option UserRow * option ShareRow * option RoleRow) :=
  left_join
    (fun sud r => sql_eq (r_id r) (col u_role sud.1.2)
                  \/ sql_eq (r_id r) (col d_role sud.2))
    (left_join (fun su d => sql_eq (s_share su.1) (d_id d))
       (left_join (fun s u => sql_eq (s_user s) (u_id u)) sessions users)
       shares)
    roles.

Definition refresh_where (refreshToken : string) (now : Z)
    (row : SessionRow * option UserRow * option ShareRow * option RoleRow)
  : Prop :=
  s_token row.1.1.1 = refreshToken
  /\ now <= s_expires row.1.1.1
  /\ (col d_date_expired row.1.2 = VNull \/ sql_ge (col d_date_expired row.1.2) now).

#[global] Instance refresh_where_dec t now row : Decision (refresh_where t now row).
Proof. unfold refresh_where. apply _. Defined.

Definition refresh_rows (refreshToken : string) (now : Z)
    (sessions : list SessionRow) (users : list UserRow)
    (shares : list ShareRow) (roles : list RoleRow) : list Obj :=
  map refresh_columns
    (filter (refresh_where refreshToken now)
       (refresh_joined sessions users shares roles)).

(** [knex.fn.now()] is the time at which the query runs. *)
Definition select_refresh_record (refreshToken : string) : M (option Obj) :=
  may_fail StepSelect ;;
  rows <- gets (fun w =>
    refresh_rows refreshToken (clock w) (directus_sessions w)
      (directus_users w) (directus_shares w) (directus_roles w)) ;;
  tick OpSelect ;;
  ret (first rows).

(** The columns [logout] selects from [directus_sessions as s] joined with
    [directus_users as u]. *)
Definition logout_columns (su : SessionRow * UserRow) : Obj :=
  [ ("id", u_id su.2);
    ("first_name", u_first_name su.2);
    ("last_name", u_last_name su.2);
    ("email", u_email su.2);
    ("password", u_password su.2);
    ("status", u_status su.2);
    ("role", u_role su.2);
    ("provider", u_provider su.2);
    ("external_identifier", u_external_identifier su.2);
    ("auth_data", u_auth_data su.2) ].

Definition logout_rows (refreshToken : string) (sessions : list SessionRow)
    (users : list UserRow) : list Obj :=
  map logout_columns
    (filter (fun su => s_token su.1 = refreshToken)
       (inner_join (fun s u => sql_eq (s_user s) (u_id u)) sessions users)).

Definition select_logout_user (refreshToken : string) : M (option Obj) :=
  may_fail StepSelect ;;
  rows <- gets (fun w =>
    logout_rows refreshToken (directus_sessions w) (directus_users w)) ;;
  tick OpSelect ;;
  ret (first rows).

(** The columns [verifyPassword] selects from [directus_users]. *)
Definition verify_columns (u : UserRow) : Obj :=
  [ ("id", u_id u);
    ("first_name", u_first_name u);
    ("last_name", u_last_name u);
    ("email", u_email u);
    ("password", u_password u);
    ("status", u_status u);
    ("role", u_role u);
    ("provider", u_provider u);
    ("external_identifier", u_external_identifier u);
    ("auth_data", u_auth_data u) ].

Definition verify_rows (userID : Value) (users : list UserRow) : list Obj :=
  map verify_columns (filter (fun u => sql_eq (u_id u) userID) users).

Definition select_verify_user (userID : Value) : M (option Obj) :=
  may_fail StepSelect ;;
  rows <- gets (fun w => verify_rows userID (directus_users w)) ;;
  tick OpSelect ;;
  ret (first rows).

(** [knex('directus_users').update(...).where({ id })] *)
Definition update_users (step : Step) (change : UserRow -> UserRow)
    (uid : Value) : M unit :=
  may_fail step ;;
  modify (set_users
    (map (fun u => if decide (sql_eq (u_id u) uid) then change u else u))) ;;
  tick OpUpdate.

(** [knex('directus_sessions').insert(row)] *)
Definition insert_session (row : SessionRow) : M unit :=
  may_fail StepInsertSession ;;
  modify (set_sessions (fun l => l ++ [row])) ;;
  tick OpInsert.

(** [knex('directus_sessions').delete().where('expires', '<', now)] *)
Definition delete_expired_sessions (now : Z) : M unit :=
  may_fail StepSweepSessions ;;
  modify (set_sessions (filter (fun s => ~ s_expires s < now))) ;;
  tick OpDelete.

(** [knex.delete().from('directus_sessions').where('token', token)] *)
Definition delete_sessions_by_token (token : string) : M unit :=
  may_fail StepDeleteSession ;;
  modify (set_sessions (filter (fun s => s_token s <> token))) ;;
  tick OpDelete.

(** [knex('directus_sessions').update({ token, expires }).where({ token })] *)
Definition update_sessions_by_token (old new : string) (expires : Z) : M unit :=
  may_fail StepRotateSession ;;
  modify (set_sessions
    (map (fun s => if decide (s_token s = old) then with_token new expires s
                   else s))) ;;
  tick OpUpdate.

(** [this.activityService.createOne(row)] *)
Definition createOne (row : ActivityRow) : M unit :=
  may_fail StepCreateActivity ;;
  modify (set_activity (fun l => l ++ [row])) ;;
  tick OpCreateActivity.

(** [this.accountability?.ip]; an undefined binding is stored as NULL. *)
Definition accountability_col (f : Accountability -> Value) : Value :=
  match accountability E with
  | Some a => f a
  | None => VNull
  end.

(** *** login *)

Definition STALL_TIME : Z := 100.

Definition login_with (providerName : string) (payload : Obj)
    (otp : option string)
  : M LoginResult :=
  timeStart <- performance_now ;;
  provider <- getAuthProvider (VStr providerName) ;;
  uid <- call_getUserID (VStr providerName) provider payload ;;
  user <- select_login_user uid (VStr providerName) ;;
  updatedPayload <- emitFilter_login payload
    {| m_status := "pending"; m_user := opt_prop "id" user;
       m_provider := VStr providerName; m_type := None |} ;;
  let emitStatus (status : string) :=
    emitAction_login updatedPayload status (opt_prop "id" user) providerName in
  if bool_decide (opt_prop "status" user <> VStr "active") then
    emitStatus "fail" ;;
    if bool_decide (opt_prop "status" user = VStr "suspended") then
      stall STALL_TIME timeStart ;;
      throw UserSuspendedException
    else
      stall STALL_TIME timeStart ;;
      throw InvalidCredentialsException
  else
  match user with
  | None => throw TypeError
  | Some user =>
  allowedAttempts <- readSingleton ;;
  user <-
    match allowedAttempts with
    | Some points =>
        modify (set_points points) ;;
        try_catch
          (loginAttemptsLimiter_consume (prop "id" user) ;;
           ret user)
          (fun _ =>
             update_users StepSuspend (with_status (VStr "suspended"))
               (prop "id" user) ;;
             let user := prop_set "status" (VStr "suspended") user in
             loginAttemptsLimiter_set StepLimiterRestart (prop "id" user) 0 ;;
             ret user)
    | None => ret user
    end ;;
  try_catch
    (call_login (VStr providerName) provider user updatedPayload)
    (fun e =>
       emitStatus "fail" ;;
       stall STALL_TIME timeStart ;;
       throw e) ;;
  (if truthy (prop "tfa_secret" user) && negb (truthy_arg otp) then
     emitStatus "fail" ;;
     stall STALL_TIME timeStart ;;
     throw (InvalidOTPException otp_required)
   else ret tt) ;;
  match otp with
  | Some otp =>
      if truthy (prop "tfa_secret" user) && truthy (VStr otp) then
        otpValid <- call_verifyOTP (prop "id" user) otp ;;
        if Bool.eqb otpValid false then
          emitStatus "fail" ;;
          stall STALL_TIME timeStart ;;
          throw (InvalidOTPException otp_invalid)
        else ret tt
      else ret tt
  | None => ret tt
  end ;;
  let tokenPayload :=
    JObj [ ("id", JVal (prop "id" user));
           ("role", JVal (prop "role" user));
           ("app_access", JVal (prop "app_access" user));
           ("admin_access", JVal (prop "admin_access" user)) ] in
  customClaims <- emitFilter_jwt tokenPayload
    {| m_status := "pending"; m_user := prop "id" user;
       m_provider := VStr providerName; m_type := Some "login" |} ;;
  accessToken <- call_sign customClaims ;;
  refreshToken <- call_nanoid ;;
  now <- Date_now ;;
  let refreshTokenExpiration := now + REFRESH_TOKEN_TTL E in
  insert_session
    {| s_token := refreshToken;
       s_user := prop "id" user;
       s_share := VNull;
       s_expires := refreshTokenExpiration;
       s_ip := accountability_col acc_ip;
       s_user_agent := accountability_col acc_userAgent |} ;;
  now <- Date_now ;;
  delete_expired_sessions now ;;
  match accountability E with
  | Some acc =>
      createOne
        {| a_action := "login";
           a_user := prop "id" user;
           a_ip := acc_ip acc;
           a_user_agent := acc_userAgent acc;
           a_collection := "directus_users";
           a_item := prop "id" user |}
  | None => ret tt
  end ;;
  now <- Date_now ;;
  update_users StepLastAccess (with_last_access (VNum now)) (prop "id" user) ;;
  emitStatus "success" ;;
  match allowedAttempts with
  | Some _ => loginAttemptsLimiter_set StepLimiterReset (prop "id" user) 0
  | None => ret tt
  end ;;
  stall STALL_TIME timeStart ;;
  ret {| accessToken := accessToken;
         refreshToken := refreshToken;
         expires := ACCESS_TOKEN_TTL E;
         id := prop "id" user |}
  end.

(** *** refresh *)

(** The user object [refresh] builds for [provider.refresh]. *)
Definition refresh_user (record : Obj) : Obj :=
  [ ("id", prop "user_id" record);
    ("first_name", prop "user_first_name" record);
    ("last_name", prop "user_last_name" record);
    ("email", prop "user_email" record);
    ("password", prop "user_password" record);
    ("status", prop "user_status" record);
    ("provider", prop "user_provider" record);
    ("external_identifier", prop "user_external_identifier" record);
    ("auth_data", prop "user_auth_data" record);
    ("role", prop "role_id" record);
    ("app_access", prop "role_app_access" record);
    ("admin_access", prop "role_admin_access" record) ].

Definition refresh_with (refreshToken : string) : M LoginResult :=
  if negb (truthy (VStr refreshToken)) then throw InvalidCredentialsException
  else
  record <- select_refresh_record refreshToken ;;
  match record with
  | None => throw InvalidCredentialsException
  | Some record =>
  if negb (truthy (prop "share_id" record))
     && negb (truthy (prop "user_id" record))
  then throw InvalidCredentialsException
  else
  (if truthy (prop "user_id" record) then
     provider <- getAuthProvider (prop "user_provider" record) ;;
     call_refresh (prop "user_provider" record) provider (refresh_user record)
   else ret tt) ;;
  let tokenPayload :=
    JObj [ ("id", JVal (prop "user_id" record));
           ("role", JVal (prop "role_id" record));
           ("app_access", JVal (prop "role_app_access" record));
           ("admin_access", JVal (prop "role_admin_access" record)) ] in
  let tokenPayload :=
    if truthy (prop "share_id" record) then
      json_set "share_scope"
        (JObj [ ("collection", JVal (prop "share_collection" record));
                ("item", JVal (prop "share_item" record)) ])
        (json_set "role" (JVal (prop "share_role" record)) tokenPayload)
    else tokenPayload in
  customClaims <- emitFilter_jwt tokenPayload
    {| m_status := "pending"; m_user := prop "user_id" record;
       m_provider := prop "user_provider" record; m_type := Some "refresh" |} ;;
  accessToken <- call_sign customClaims ;;
  newRefreshToken <- call_nanoid ;;
  now <- Date_now ;;
  let refreshTokenExpiration := now + REFRESH_TOKEN_TTL E in
  update_sessions_by_token refreshToken newRefreshToken refreshTokenExpiration ;;
  (if truthy (prop "user_id" record) then
     now <- Date_now ;;
     update_users StepLastAccess (with_last_access (VNum now))
       (prop "user_id" record)
   else ret tt) ;;
  ret {| accessToken := accessToken;
         refreshToken := newRefreshToken;
         expires := ACCESS_TOKEN_TTL E;
         id := prop "user_id" record |}
  end.

(** *** logout *)

Definition logout_with (refreshToken : string) : M unit :=
  record <- select_logout_user refreshToken ;;
  match record with
  | Some user =>
      provider <- getAuthProvider (prop "provider" user) ;;
      call_logout (prop "provider" user) provider user ;;
      delete_sessions_by_token refreshToken
  | None => ret tt
  end.

(** *** verifyPassword *)

Definition verifyPassword_with (userID : Value) (password : string) : M unit :=
  user <- select_verify_user userID ;;
  match user with
  | None => throw InvalidCredentialsException
  | Some user =>
      provider <- getAuthProvider (prop "provider" user) ;;
      call_verify (prop "provider" user) provider user password
  end.

End Service.

(** *** The service when no step rejects *)

Definition login : Env -> string -> Obj -> option string -> M LoginResult :=
  login_with reliable.

Definition refresh : Env -> string -> M LoginResult := refresh_with reliable.

Definition logout : Env -> string -> M unit := logout_with reliable.

Definition verifyPassword : Env -> Value -> string -> M unit :=
  verifyPassword_with reliable.

(** * A concrete deployment

    One store, two providers and an environment on which the service can
    be run; the examples further down evaluate the service on it. *)

Module Fixture.

Definition role_admin : RoleRow :=
  {| r_id := VStr "role-admin"; r_admin_access := VBool true;
     r_app_access := VBool true |}.

Definition role_viewer : RoleRow :=
  {| r_id := VStr "role-viewer"; r_admin_access := VBool false;
     r_app_access := VBool false |}.

Definition user (uid email status tfa provider : Value) : UserRow :=
  {| u_id := uid; u_first_name := VStr "Ada"; u_last_name := VNull;
     u_email := email; u_password := VStr "correct horse";
     u_status := status; u_role := VStr "role-admin";
     u_tfa_secret := tfa; u_provider := provider;
     u_external_identifier := VNull; u_auth_data := VNull;
     u_last_access := VNull |}.

Definition u1 : UserRow :=
  user (VStr "u1") (VStr "ada@example.com") (VStr "active") VNull
    (VStr "default").
Definition u2 : UserRow :=
  user (VStr "u2") (VStr "otp@example.com") (VStr "active")
    (VStr "JBSWY3DPEHPK3PXP") (VStr "default").
Definition u3 : UserRow :=
  user (VStr "u3") (VStr "locked@example.com") (VStr "suspended") VNull
    (VStr "default").
Definition u4 : UserRow :=
  user (VStr "u4") (VStr "sso@example.com") (VStr "active") VNull
    (VStr "sso").

Definition share1 : ShareRow :=
  {| d_id := VStr "share-1"; d_collection := VStr "articles";
     d_item := VStr "42"; d_role := VStr "role-viewer";
     d_date_expired := VNull; d_times_used := VNum 0; d_max_uses := VNull |}.

Definition session (token : string) (owner share : Value) : SessionRow :=
  {| s_token := token; s_user := owner; s_share := share;
     s_expires := 5000000; s_ip := VNull; s_user_agent := VNull |}.

(** The e-mail directory of the providers: [getUserID] does not read the
    store. *)
Definition directory : Obj :=
  [ ("ada@example.com", VStr "u1");
    ("otp@example.com", VStr "u2");
    ("locked@example.com", VStr "u3");
    ("sso@example.com", VStr "u4") ].

Definition lookup_email (payload : Obj) : Result Value :=
  match prop "email" payload with
  | VStr email =>
      match prop email directory with
      | VUndefined => Throw InvalidCredentialsException
      | uid => Ok uid
      end
  | _ => Throw InvalidCredentialsException
  end.

(** A password provider: the comparison stands for the hash check. *)
Definition local : Provider :=
  {| getUserID := lookup_email;
     provider_login := fun user payload =>
       if decide (prop "password" payload = prop "password" user) then None
       else Some InvalidCredentialsException;
     provider_refresh := fun _ => None;
     provider_logout := fun _ => None;
     provider_verify := fun user password =>
       if decide (VStr password = prop "password" user) then None
       else Some InvalidCredentialsException |}.

(** A single-sign-on provider whose upstream session has ended. *)
Definition sso : Provider :=
  {| getUserID := lookup_email;
     provider_login := fun _ _ => None;
     provider_refresh := fun _ => Some InvalidCredentialsException;
     provider_logout := fun _ => None;
     provider_verify := fun _ _ => Some InvalidCredentialsException |}.

Fixpoint token_of (n : nat) : string :=
  match n with
  | O => "rt"
  | S n => String "x"%char (token_of n)
  end.

Definition env : Env :=
  {| providers := fun name =>
       if decide (name = VStr "default") then Some local
       else if decide (name = VStr "sso") then Some sso
       else None;
     filter_auth_login := fun payload _ => Ok payload;
     filter_auth_jwt := fun payload _ => Ok payload;
     auth_login_attempts := Ok (Some 3);
     verifyOTP := fun _ otp => Ok (bool_decide (otp = "123456"));
     jwt_sign := fun _ => "signed.jwt";
     nanoid := token_of;
     REFRESH_TOKEN_TTL := 604800000;
     ACCESS_TOKEN_TTL := 900000;
     latency := fun _ => 2%N;
     accountability :=
       Some {| acc_ip := VStr "127.0.0.1"; acc_userAgent := VStr "curl" |} |}.

(** The same deployment with a hook on [auth.login] that fails. *)
Definition env_failing_hook : Env :=
  {| providers := providers env;
     filter_auth_login := fun _ _ => Throw (ServiceError "hook");
     filter_auth_jwt := filter_auth_jwt env;
     auth_login_attempts := auth_login_attempts env;
     verifyOTP := verifyOTP env;
     jwt_sign := jwt_sign env;
     nanoid := nanoid env;
     REFRESH_TOKEN_TTL := REFRESH_TOKEN_TTL env;
     ACCESS_TOKEN_TTL := ACCESS_TOKEN_TTL env;
     latency := latency env;
     accountability := accountability env |}.

Definition world : World :=
  {| directus_users := [u1; u2; u3; u4];
     directus_roles := [role_admin; role_viewer];
     directus_sessions :=
       [ session "rt-u1" (VStr "u1") VNull;
         session "rt-share" VNull (VStr "share-1");
         session "rt-u3" (VStr "u3") VNull;
         session "rt-u4" (VStr "u4") VNull ];
     directus_shares := [share1];
     directus_activity := [];
     limiter_points := 0;
     limiter_consumed := ∅;
     clock := 1000;
     rng := 0;
     trace := [] |}.

Definition credentials (email password : string) : Obj :=
  [ ("email", VStr email); ("password", VStr password) ].

Definition ada_good : Obj := credentials "ada@example.com" "correct horse".
Definition ada_bad : Obj := credentials "ada@example.com" "wrong".

(** The same deployment without an attempt budget. *)
Definition env_no_budget : Env :=
  {| providers := providers env;
     filter_auth_login := filter_auth_login env;
     filter_auth_jwt := filter_auth_jwt env;
     auth_login_attempts := Ok None;
     verifyOTP := verifyOTP env;
     jwt_sign := jwt_sign env;
     nanoid := nanoid env;
     REFRESH_TOKEN_TTL := REFRESH_TOKEN_TTL env;
     ACCESS_TOKEN_TTL := ACCESS_TOKEN_TTL env;
     latency := latency env;
     accountability := accountability env |}.

(** The same deployment with a password provider whose logout hook
    fails. *)
Definition local_failing_logout : Provider :=
  {| getUserID := getUserID local;
     provider_login := provider_login local;
     provider_refresh := provider_refresh local;
     provider_logout := fun _ => Some (ServiceError "logout");
     provider_verify := provider_verify local |}.

Definition env_failing_logout : Env :=
  {| providers := fun name =>
       if decide (name = VStr "default") then Some local_failing_logout
       else None;
     filter_auth_login := filter_auth_login env;
     filter_auth_jwt := filter_auth_jwt env;
     auth_login_attempts := auth_login_attempts env;
     verifyOTP := verifyOTP env;
     jwt_sign := jwt_sign env;
     nanoid := nanoid env;
     REFRESH_TOKEN_TTL := REFRESH_TOKEN_TTL env;
     ACCESS_TOKEN_TTL := ACCESS_TOKEN_TTL env;
     latency := latency env;
     accountability := accountability env |}.

(** Plans of faults: the sweep of the expired sessions rejects; the update
    of last_access rejects. *)
Definition sweep_fails : Faults :=
  fun step =>
    match step with
    | StepSweepSessions => Some "sweep"
    | _ => None
    end.

Definition last_access_fails : Faults :=
  fun step =>
    match step with
    | StepLastAccess => Some "last_access"
    | _ => None
    end.

(** The store long after: every session has expired. *)
Definition world_later : World := set_clock 6000000 world.

(** The store with a share that has expired and a session that is long
    past its expiry. *)
Definition share_expired : ShareRow :=
  {| d_id := VStr "share-1"; d_collection := VStr "articles";
     d_item := VStr "42"; d_role := VStr "role-viewer";
     d_date_expired := VNum 500; d_times_used := VNum 0;
     d_max_uses := VNull |}.

Definition old_session : SessionRow :=
  {| s_token := "rt-old"; s_user := VStr "u2"; s_share := VNull;
     s_expires := 10; s_ip := VNull; s_user_agent := VNull |}.

Definition world_stale : World :=
  {| directus_users := directus_users world;
     directus_roles := directus_roles world;
     directus_sessions := old_session :: directus_sessions world;
     directus_shares := [share_expired];
     directus_activity := [];
     limiter_points := 0;
     limiter_consumed := ∅;
     clock := 1000;
     rng := 0;
     trace := [] |}.

End Fixture.

(** * Vocabulary of the properties *)

(** The events a call appended to the trace. *)
Definition new_events (w w' : World) : list Event :=
  drop (length (trace w)) (trace w').


(** What [login] passes to the auth.login hook next to the payload. *)
Definition login_meta (pn : string) (user : Value) : Meta :=
  {| m_status := "pending"; m_user := user; m_provider := VStr pn;
     m_type := None |}.

(** The calls [login] has made when the credential check has been made on
    the user object [user]. *)
Definition checked_credentials (pn : string) (payload payload' user : Obj)
  : list Event :=
  [ EvGetUserID (VStr pn) payload;
    EvFilterLogin payload (login_meta pn (prop "id" user));
    EvReadSingleton;
    EvProviderLogin (VStr pn) user payload' ].

(** A failure exit of [login]: the failure event, then the stall. *)
Definition failure_exit (pn : string) (payload' : Obj) (user : Value)
    (start : Z) : list Event :=
  [ EvAction payload' "fail" user pn; EvStall 100 start ].




(** The user object [login] hands to the provider's credential check: the
    selected row, with its status field overwritten when the limiter has
    just rejected the attempt. *)
Definition user_for_provider (attempts : option Z) (w : World) (user : Obj)
  : Obj :=
  match attempts with
  | Some points =>
      if points <? consumed_points (prop "id" user) (limiter_consumed w) + 1
      then prop_set "status" (VStr "suspended") user
      else user
  | None => user
  end.

(** The rows the query of [refresh] returns in world [w]. *)
Definition refresh_result (t : string) (w : World) : list Obj :=
  refresh_rows t (clock w) (directus_sessions w) (directus_users w)
    (directus_shares w) (directus_roles w).

(** No valid identity can be established for token [t]: the token is empty,
    or no row matches, or the first matching row references neither a user
    nor a share. *)
Definition no_identity (t : string) (w : World) : bool :=
  negb (truthy (VStr t))
  || match first (refresh_result t w) with
     | None => true
     | Some record =>
         negb (truthy (prop "share_id" record))
         && negb (truthy (prop "user_id" record))
     end.

(** What [refresh] writes over the rows whose token is [t]: the new token
    and the new expiry, the other columns as they were. *)
Definition rotate (t new : string) (expires : Z) (s : SessionRow) : SessionRow :=
  if decide (s_token s = t)
  then {| s_token := new; s_user := s_user s; s_share := s_share s;
          s_expires := expires; s_ip := s_ip s;
          s_user_agent := s_user_agent s |}
  else s.

(** The world after [n] login attempts in a row with the same arguments. *)
Fixpoint after_attempts (E : Env) (pn : string) (payload : Obj)
    (otp : option string) (n : nat) (w : World) : World :=
  match n with
  | O => w
  | S n => after_attempts E pn payload otp n (login E pn payload otp w).2
  end.

(** ** Vocabulary of the effects of a call *)

(** The token payload [login] builds from the selected row. *)
Definition login_payload (user : Obj) : Json :=
  JObj [ ("id", JVal (prop "id" user));
         ("role", JVal (prop "role" user));
         ("app_access", JVal (prop "app_access" user));
         ("admin_access", JVal (prop "admin_access" user)) ].

(** What [login] passes to the auth.jwt hook next to the payload. *)
Definition login_jwt_meta (pn : string) (user : Value) : Meta :=
  {| m_status := "pending"; m_user := user; m_provider := VStr pn;
     m_type := Some "login" |}.

(** The session row [login] inserts. *)
Definition login_session (E : Env) (token : string) (user : Value)
    (issued : Z) : SessionRow :=
  {| s_token := token; s_user := user; s_share := VNull;
     s_expires := issued + REFRESH_TOKEN_TTL E;
     s_ip := accountability_col E acc_ip;
     s_user_agent := accountability_col E acc_userAgent |}.

(** The activity row [login] records. *)
Definition login_activity (user : Value) (acc : Accountability) : ActivityRow :=
  {| a_action := "login"; a_user := user; a_ip := acc_ip acc;
     a_user_agent := acc_userAgent acc; a_collection := "directus_users";
     a_item := user |}.

(** The two updates of [directus_users]: [status] and [last_access]. *)
Definition suspend_user (uid : Value) (u : UserRow) : UserRow :=
  if decide (sql_eq (u_id u) uid) then with_status (VStr "suspended") u else u.

Definition touch_user (uid : Value) (t : Z) (u : UserRow) : UserRow :=
  if decide (sql_eq (u_id u) uid) then with_last_access (VNum t) u else u.

(** * Properties *)

(** ** Objects *)

Lemma prop_prop_set_ne k k' v o :
  String.eqb k k' = false -> prop k (prop_set k' v o) = prop k o.
Proof.
  intros Hne. induction o as [|[k0 v0] o IH]; cbn.
  - rewrite Hne. reflexivity.
  - destruct (String.eqb k' k0) eqn:Hk; cbn.
    + apply String.eqb_eq in Hk. subst k0. rewrite Hne. reflexivity.
    + destruct (String.eqb k k0); [reflexivity | exact IH].
Qed.

Lemma prop_prop_set_eq k v o : prop k (prop_set k v o) = v.
Proof.
  induction o as [|[k0 v0] o IH]; cbn.
  - rewrite String.eqb_refl. reflexivity.
  - destruct (String.eqb k k0) eqn:Hk; cbn; rewrite Hk; [reflexivity | exact IH].
Qed.

(** ** Joins and [first] *)

Section Joins.

Context {A B : Type} (on : A -> B -> Prop) `{forall a b, Decision (on a b)}.

Lemma elem_of_inner_join (l : list A) (r : list B) a b :
  (a, b) ∈ inner_join on l r <-> a ∈ l /\ b ∈ r /\ on a b.
Proof.
  unfold inner_join. rewrite list_elem_of_In, in_flat_map. split.
  - intros (a' & Ha & Hab). apply in_map_iff in Hab as (b' & Heq & Hb).
    inversion Heq; subst. apply list_elem_of_In, list_elem_of_filter in Hb.
    rewrite list_elem_of_In. tauto.
  - intros (Ha & Hb & Hon). exists a. split; [by apply list_elem_of_In |].
    apply in_map, list_elem_of_In, list_elem_of_filter. tauto.
Qed.

Lemma elem_of_left_join (l : list A) (r : list B) a ob :
  (a, ob) ∈ left_join on l r
  <-> a ∈ l /\ match ob with
              | Some b => b ∈ r /\ on a b
              | None => forall b, b ∈ r -> ~ on a b
              end.
Proof.
  unfold left_join. rewrite list_elem_of_In, in_flat_map. split.
  - intros (a' & Ha & Hab). apply list_elem_of_In in Ha.
    destruct (filter (on a') r) as [|b0 bs] eqn:Hf.
    + destruct Hab as [Heq | []]. inversion Heq; subst. split; [done |].
      intros b Hb Hon. eapply filter_nil_not_elem_of; eauto.
    + rewrite <- Hf in Hab. apply in_map_iff in Hab as (b' & Heq & Hb).
      inversion Heq; subst. apply list_elem_of_In, list_elem_of_filter in Hb.
      tauto.
  - intros [Ha Hob]. exists a. split; [by apply list_elem_of_In |].
    destruct ob as [b|].
    + assert (b ∈ filter (on a) r) as Hb by (apply list_elem_of_filter; tauto).
      destruct (filter (on a) r) as [|b0 bs] eqn:Hf; [by inversion Hb |].
      rewrite <- Hf in Hb. rewrite <- Hf.
      apply in_map_iff. exists b. split; [done | by apply list_elem_of_In].
    + destruct (filter (on a) r) as [|b0 bs] eqn:Hf; [by left |].
      exfalso. assert (b0 ∈ filter (on a) r) as Hb by (rewrite Hf; left).
      apply list_elem_of_filter in Hb as [Hon Hb]. by apply (Hob b0).
Qed.

(** Every row of the left table shows up in a left join. *)
Lemma left_join_total (l : list A) (r : list B) a :
  a ∈ l -> exists ob, (a, ob) ∈ left_join on l r.
Proof.
  intros Ha. destruct (filter (on a) r) as [|b0 bs] eqn:Hf.
  - exists None. apply elem_of_left_join. split; [done |].
    intros b Hb Hon. eapply filter_nil_not_elem_of; eauto.
  - exists (Some b0). apply elem_of_left_join. split; [done |].
    assert (b0 ∈ filter (on a) r) as Hb by (rewrite Hf; left).
    by apply list_elem_of_filter in Hb as [Hon Hb].
Qed.

End Joins.

Section First.

Context {A B : Type} (f : A -> B) (P : A -> Prop) `{forall a, Decision (P a)}.

Lemma first_rows_Some (l : list A) y :
  first (map f (filter P l)) = Some y -> exists x, y = f x /\ x ∈ l /\ P x.
Proof.
  unfold first. intros Hy. apply head_Some_elem_of in Hy.
  apply list_elem_of_In, in_map_iff in Hy as (x & Heq & Hx).
  apply list_elem_of_In, list_elem_of_filter in Hx. subst y. exists x. tauto.
Qed.

Lemma first_rows_None (l : list A) :
  first (map f (filter P l)) = None <-> forall x, x ∈ l -> ~ P x.
Proof.
  unfold first. rewrite head_None. split.
  - intros Hnil x Hx HP. apply map_eq_nil in Hnil.
    eapply filter_nil_not_elem_of; eauto.
  - intros Hno. destruct (filter P l) as [|x xs] eqn:Hf; [done |].
    exfalso. assert (x ∈ filter P l) as Hx by (rewrite Hf; left).
    apply list_elem_of_filter in Hx as [HP Hx]. by apply (Hno x).
Qed.

Lemma first_rows_exists (l : list A) x :
  x ∈ l -> P x -> exists y, first (map f (filter P l)) = Some y.
Proof.
  intros Hx HP. destruct (first (map f (filter P l))) as [y|] eqn:Hy; [eauto |].
  exfalso. rewrite first_rows_None in Hy. by apply (Hy x).
Qed.

End First.

(** ** Stepping through service code *)

#[local] Arguments login_rows : simpl never.
#[local] Arguments refresh_rows : simpl never.
#[local] Arguments logout_rows : simpl never.
#[local] Arguments verify_rows : simpl never.
#[local] Arguments first : simpl never.
#[local] Arguments refresh_user : simpl never.
#[local] Arguments bool_decide : simpl never.
#[local] Arguments truthy : simpl never.

Ltac unfold_service :=
  unfold login, refresh, logout, verifyPassword,
    login_with, refresh_with, logout_with, verifyPassword_with,
    select_login_user, select_refresh_record, select_logout_user,
    select_verify_user, update_users, insert_session,
    delete_expired_sessions, delete_sessions_by_token,
    update_sessions_by_token, createOne,
    call_getUserID, call_login, call_refresh, call_logout, call_verify,
    call_verifyOTP, call_nanoid, call_sign, emitFilter_login, emitFilter_jwt,
    emitAction_login, readSingleton, getAuthProvider, hook,
    loginAttemptsLimiter_consume, loginAttemptsLimiter_set,
    stall, performance_now, Date_now, tick, emit, STALL_TIME,
    may_fail, reliable,
    try_catch, bind, ret, throw, gets, modify, lift in *.

(** Case analysis on whatever the run in the goal is stuck on. *)
Ltac run :=
  repeat
    (cbn;
     match goal with
     | |- context [match ?x with _ => _ end] =>
         lazymatch x with
         | context [match _ with _ => _ end] => fail
         | _ => destruct x eqn:?
         end
     end);
  cbn.

(** The same, but a hypothesis that settles the scrutinee is used first. *)
Ltac settle x :=
  match goal with
  | H : ?l = _ |- _ =>
      lazymatch x with
      | context [l] => rewrite H; cbn [andb negb orb]; cbn beta iota
      end
  end.

Ltac run_with_hyps :=
  repeat
    (cbn; rewrite ?prop_prop_set_ne by reflexivity; unfold truthy_arg;
     match goal with
     | |- context [match ?x with _ => _ end] =>
         lazymatch x with
         | context [match _ with _ => _ end] => fail
         | _ => first [ settle x | destruct x eqn:? ]
         end
     end);
  cbn.

(** Branches whose tests contradict the hypotheses. *)
Ltac absurd_branch :=
  try (exfalso; unfold truthy_arg in *; cbn [negb andb orb] in *; congruence).


Ltac clock_facts :=
  repeat match goal with
    | H : (_ <? _) = false |- _ => apply Z.ltb_ge in H
    | H : (_ <? _) = true |- _ => apply Z.ltb_lt in H
    end.

(** ** login *)

Section LoginProps.

Variable E : Env.

(** A user registered under another provider name is not found. *)
Lemma login_rows_provider_mismatch uid pn users roles :
  (forall u, u ∈ users -> sql_eq (u_id u) uid -> u_provider u <> VStr pn) ->
  first (login_rows uid (VStr pn) users roles) = None.
Proof.
  intros Hother. apply first_rows_None. intros [u r] Hur [Hid Hprov].
  apply elem_of_inner_join in Hur as (Hu & _ & _).
  destruct Hprov as (_ & _ & Hprov). by apply (Hother u).
Qed.

(** C7. A login attempt whose looked-up user is absent (no row, which
    includes a row under another provider name) or has a status other than
    active emits the failure event, stalls, and throws UserSuspended when
    the status is exactly suspended and InvalidCredentials otherwise; the
    provider's credential check is not called and nothing is written. *)
Theorem login_inactive_user pn payload otp w p uid user payload' :
  providers E (VStr pn) = Some p ->
  getUserID p payload = Ok uid ->
  first (login_rows uid (VStr pn) (directus_users w) (directus_roles w)) = user ->
  filter_auth_login E payload (login_meta pn (opt_prop "id" user))
  = Ok payload' ->
  opt_prop "status" user <> VStr "active" ->
  exists w',
    login E pn payload otp w
    = (Throw (if bool_decide (opt_prop "status" user = VStr "suspended")
              then UserSuspendedException else InvalidCredentialsException), w')
    /\ trace w'
       = trace w
         ++ [ EvGetUserID (VStr pn) payload;
              EvFilterLogin payload (login_meta pn (opt_prop "id" user)) ]
         ++ failure_exit pn payload' (opt_prop "id" user) (clock w)
    /\ Forall (fun e => is_provider_login e = false) (new_events w w')
    /\ store w' = store w
    /\ limiter_consumed w' = limiter_consumed w.
Proof.
  intros Hp Hid Hsel Hf Hst.
  unfold new_events, failure_exit, login_meta in *.
  unfold_service. rewrite Hp. cbn. rewrite Hid. cbn.
  rewrite Hsel. rewrite Hf. cbn.
  rewrite bool_decide_eq_true_2 by assumption.
  destruct (bool_decide (opt_prop "status" user = VStr "suspended")); cbn;
    destruct (_ <? _); cbn; eexists; (split; [reflexivity|]); cbn;
    rewrite <- !app_assoc; cbn; (split; [reflexivity|]);
    rewrite drop_app_length; repeat split; repeat constructor.
Qed.


(** The session a successful login leaves behind, read off the run. *)
Lemma login_session_row pn payload otp w :
  Z.of_N (latency E OpInsert) <= REFRESH_TOKEN_TTL E ->
  let out := login E pn payload otp w in
  match out.1 with
  | Ok res =>
      exists row issued p uid user,
        row ∈ directus_sessions out.2
        /\ s_token row = refreshToken res
        /\ s_user row = id res
        /\ s_expires row = issued + REFRESH_TOKEN_TTL E
        /\ clock w <= issued <= clock out.2
        /\ refreshToken res = nanoid E (rng w)
        /\ providers E (VStr pn) = Some p
        /\ getUserID p payload = Ok uid
        /\ first (login_rows uid (VStr pn) (directus_users w)
                    (directus_roles w)) = Some user
        /\ id res = prop "id" user
  | Throw _ => True
  end.
Proof.
  intros Httl out. subst out. unfold_service. run.
  all: try exact I.
  all: rewrite ?prop_prop_set_ne by reflexivity.
  all: clock_facts.
  all: eexists _, _, _, _, _.
  all: (split; [apply list_elem_of_filter; apply and_comm; split;
                 [apply elem_of_app; right; apply list_elem_of_singleton;
                  reflexivity
                 | cbn; lia] |]).
  all: cbn; repeat split; first [reflexivity | eassumption | lia].
Qed.

(** C3. Every successful login leaves a session row whose token is the
    refresh token returned to the caller, whose user is the id of the
    authenticated user, and whose expiry is the issue time, an instant of
    the call, plus the configured refresh-token TTL.  (The sweep of
    expired rows that follows the insert keeps the row because the TTL is
    not shorter than the time the insert takes.) *)
Theorem login_persists_session pn payload otp w res w' :
  Z.of_N (latency E OpInsert) <= REFRESH_TOKEN_TTL E ->
  login E pn payload otp w = (Ok res, w') ->
  exists row issued p uid user,
    row ∈ directus_sessions w'
    /\ s_token row = refreshToken res
    /\ s_user row = id res
    /\ s_expires row = issued + REFRESH_TOKEN_TTL E
    /\ clock w <= issued <= clock w'
    /\ refreshToken res = nanoid E (rng w)
    /\ providers E (VStr pn) = Some p
    /\ getUserID p payload = Ok uid
    /\ first (login_rows uid (VStr pn) (directus_users w)
                (directus_roles w)) = Some user
    /\ id res = prop "id" user.
Proof.
  intros Httl Hrun.
  pose proof (login_session_row pn payload otp w Httl) as Hrow.
  cbv zeta in Hrow. rewrite Hrun in Hrow. exact Hrow.
Qed.

(** *** Attempts that reach the credential check *)

Section ActiveUser.

Variables (pn : string) (payload : Obj) (otp : option string) (w : World).
Variables (p : Provider) (uid : Value) (user payload' : Obj).
Variable attempts : option Z.

Hypothesis Hprovider : providers E (VStr pn) = Some p.
Hypothesis HuserID : getUserID p payload = Ok uid.
Hypothesis Hselect :
  first (login_rows uid (VStr pn) (directus_users w) (directus_roles w))
  = Some user.
Hypothesis Hfilter :
  filter_auth_login E payload (login_meta pn (prop "id" user)) = Ok payload'.
Hypothesis Hactive : prop "status" user = VStr "active".
Hypothesis Hsettings : auth_login_attempts E = Ok attempts.

Ltac reach_credential_check :=
  unfold checked_credentials, failure_exit, login_meta, user_for_provider in *;
  unfold_service; rewrite Hprovider; cbn; rewrite HuserID; cbn;
  rewrite Hselect; cbn; rewrite Hfilter; cbn;
  rewrite (bool_decide_eq_false_2 (prop "status" user <> VStr "active"))
    by (intros Hne; exact (Hne Hactive));
  rewrite Hsettings; cbn.

(** X18. When the credential check of the provider fails, login throws
    the very error of the provider, after the failure event and the stall;
    the calls made before are the user lookup, the auth.login hook, the
    settings read and the credential check. *)
Lemma login_provider_rejects e :
  provider_login p (user_for_provider attempts w user) payload' = Some e ->
  let out := login E pn payload otp w in
  out.1 = Throw e
  /\ trace out.2
     = trace w
       ++ checked_credentials pn payload payload'
            (user_for_provider attempts w user)
       ++ failure_exit pn payload' (prop "id" user) (clock w).
Proof.
  intros Hlogin. reach_credential_check.
  run; simplify_eq; rewrite ?prop_prop_set_ne by reflexivity;
    rewrite <- ?app_assoc; split; reflexivity.
Qed.

(** C8. A login attempt by an active user with an enrolled second-factor
    secret whose credentials the provider accepted: without an OTP it
    throws InvalidOTP, required; with an OTP that the verifier answers false
    to it throws InvalidOTP, invalid; in both cases the failure event is
    emitted, then the stall, then the throw.  It succeeds only if an OTP
    was supplied and the verifier returned true for it. *)
Theorem login_second_factor :
  provider_login p (user_for_provider attempts w user) payload' = None ->
  truthy (prop "tfa_secret" user) = true ->
  let out := login E pn payload otp w in
  (truthy_arg otp = false ->
     out.1 = Throw (InvalidOTPException otp_required)
     /\ trace out.2
        = trace w
          ++ checked_credentials pn payload payload'
             (user_for_provider attempts w user)
          ++ failure_exit pn payload' (prop "id" user) (clock w))
  /\ (forall code, otp = Some code -> truthy (VStr code) = true ->
        verifyOTP E (prop "id" user) code = Ok false ->
        out.1 = Throw (InvalidOTPException otp_invalid)
        /\ trace out.2
           = trace w
             ++ checked_credentials pn payload payload'
                (user_for_provider attempts w user)
             ++ [EvVerifyOTP (prop "id" user) code]
             ++ failure_exit pn payload' (prop "id" user) (clock w))
  /\ (forall res, out.1 = Ok res ->
        exists code, otp = Some code
          /\ verifyOTP E (prop "id" user) code = Ok true).
Proof.
  intros Hlogin Htfa out. subst out. split; [| split].
  - intros Hotp. reach_credential_check.
    run_with_hyps; absurd_branch; rewrite ?prop_prop_set_ne by reflexivity;
      rewrite <- ?app_assoc; split; reflexivity.
  - intros code -> Hcode Hverify. reach_credential_check.
    run_with_hyps; absurd_branch; rewrite ?prop_prop_set_ne by reflexivity;
      rewrite <- ?app_assoc; split; reflexivity.
  - reach_credential_check.
    run_with_hyps; absurd_branch; intros res Hres; try discriminate;
      eexists; (split; [reflexivity |]);
      match goal with
      | H : verifyOTP _ _ _ = Ok ?b |- _ =>
          destruct b; [exact H | discriminate]
      end.
Qed.

End ActiveUser.

(** *** Lockout *)

(** A row that matches the user after the two updates of a locked-out
    login has been suspended by the first. *)
Lemma suspended_row uid0 v (u0 : UserRow) :
  let suspend u :=
    if decide (sql_eq (u_id u) uid0) then with_status (VStr "suspended") u
    else u in
  let touch u :=
    if decide (sql_eq (u_id u) uid0) then with_last_access v u else u in
  sql_eq (u_id (touch (suspend u0))) uid0 ->
  u_status (touch (suspend u0)) = VStr "suspended".
Proof.
  intros suspend touch. subst suspend touch. cbv beta.
  destruct (decide (sql_eq (u_id u0) uid0)) as [Hyes|Hno]; cbn.
  - rewrite decide_True by exact Hyes. reflexivity.
  - rewrite decide_False by exact Hno. intros Hmatch. by destruct Hno.
Qed.


Section Lockout.

Variables (pn : string) (p : Provider) (uid : Value) (user : Obj).
Variables (users : list UserRow) (roles : list RoleRow).
Variable budget : nat.

Hypothesis Hprovider : providers E (VStr pn) = Some p.
Hypothesis Hselect : first (login_rows uid (VStr pn) users roles) = Some user.
Hypothesis Hactive : prop "status" user = VStr "active".
Hypothesis Hsettings : auth_login_attempts E = Ok (Some (Z.of_nat budget)).

(** An attempt within the budget that the provider rejects consumes one
    point and leaves the users alone. *)
Lemma login_rejected_consumes payload payload' e w :
  directus_users w = users -> directus_roles w = roles ->
  getUserID p payload = Ok uid ->
  filter_auth_login E payload (login_meta pn (prop "id" user))
  = Ok payload' ->
  provider_login p user payload' = Some e ->
  consumed_points (prop "id" user) (limiter_consumed w) + 1 <= Z.of_nat budget ->
  let out := login E pn payload None w in
  out.1 = Throw e
  /\ directus_users out.2 = users
  /\ directus_roles out.2 = roles
  /\ consumed_points (prop "id" user) (limiter_consumed out.2)
     = consumed_points (prop "id" user) (limiter_consumed w) + 1.
Proof.
  intros Hu Hr Hid Hf Hreject Hbudget out. subst out.
  unfold login_meta in Hf.
  apply Z.ltb_ge in Hbudget.
  unfold_service. rewrite Hprovider. cbn. rewrite Hid. cbn.
  rewrite Hu, Hr, Hselect. cbn. rewrite Hf. cbn.
  rewrite (bool_decide_eq_false_2 (prop "status" user <> VStr "active"))
    by (intros Hne; exact (Hne Hactive)).
  rewrite Hsettings. run_with_hyps; repeat split; try done;
    unfold consumed_points; by rewrite lookup_insert_eq.
Qed.

Lemma failed_attempts_consume payload payload' e n :
  getUserID p payload = Ok uid ->
  filter_auth_login E payload (login_meta pn (prop "id" user))
  = Ok payload' ->
  provider_login p user payload' = Some e ->
  forall w,
    directus_users w = users -> directus_roles w = roles ->
    consumed_points (prop "id" user) (limiter_consumed w) + Z.of_nat n
    <= Z.of_nat budget ->
    let w' := after_attempts E pn payload None n w in
    directus_users w' = users
    /\ directus_roles w' = roles
    /\ consumed_points (prop "id" user) (limiter_consumed w')
       = consumed_points (prop "id" user) (limiter_consumed w) + Z.of_nat n.
Proof.
  intros Hid Hf Hreject. induction n as [|n IH]; intros w Hu Hr Hbudget.
  - cbn [after_attempts]. repeat split; try done. lia.
  - cbn [after_attempts].
    destruct (login_rejected_consumes payload payload' e w)
      as (_ & Hu' & Hr' & Hc'); try done; [lia |].
    destruct (IH (login E pn payload None w).2) as (Hu'' & Hr'' & Hc'');
      try done; [lia |].
    repeat split; try done. lia.
Qed.

(** The attempt that exceeds the budget suspends the user in the store,
    and then goes on to the credential check with the copy of the user it
    holds: if the provider accepts the credential, the login succeeds. *)
Lemma login_over_budget_succeeds payload payload' w :
  directus_users w = users -> directus_roles w = roles ->
  getUserID p payload = Ok uid ->
  filter_auth_login E payload (login_meta pn (prop "id" user))
  = Ok payload' ->
  consumed_points (prop "id" user) (limiter_consumed w) = Z.of_nat budget ->
  provider_login p (prop_set "status" (VStr "suspended") user) payload' = None ->
  truthy (prop "tfa_secret" user) = false ->
  (forall payload meta, exists claims,
      filter_auth_jwt E payload meta = Ok claims) ->
  let out := login E pn payload None w in
  (exists res,
      out.1 = Ok res /\ id res = prop "id" user
      /\ refreshToken res = nanoid E (rng w))
  /\ (forall u, u ∈ directus_users out.2 ->
        sql_eq (u_id u) (prop "id" user) -> u_status u = VStr "suspended")
  /\ consumed_points (prop "id" user) (limiter_consumed out.2) = 0.
Proof.
  intros Hu Hr Hid Hf Hconsumed Haccept Htfa Hjwt out. subst out.
  unfold login_meta in Hf.
  assert ((Z.of_nat budget
           <? consumed_points (prop "id" user) (limiter_consumed w) + 1) = true)
    as Hover by (apply Z.ltb_lt; lia).
  unfold_service. rewrite Hprovider. cbn. rewrite Hid. cbn.
  rewrite Hu, Hr, Hselect. cbn. rewrite Hf. cbn.
  rewrite (bool_decide_eq_false_2 (prop "status" user <> VStr "active"))
    by (intros Hne; exact (Hne Hactive)).
  rewrite Hsettings.
  run_with_hyps;
    try match goal with
        | H : filter_auth_jwt E ?pl ?m = Throw _ |- _ =>
            destruct (Hjwt pl m) as [claims Hclaims]; congruence
        end;
    (split; [eauto |]); cbn;
    (split; [| unfold consumed_points; by rewrite lookup_insert_eq]);
    intros u Hin Hmatch;
    apply list_elem_of_In, in_map_iff in Hin as (u1 & <- & Hin);
    apply in_map_iff in Hin as (u0 & <- & _);
    by apply suspended_row in Hmatch.
Qed.

(** X19. After as many rejected attempts as the budget allows, counted
    from an empty counter, the user is still active in the store; the next
    attempt, made with a credential the provider accepts, suspends the user
    in the store and succeeds all the same. *)
Lemma login_after_lockout_succeeds bad bad' e good good' w :
  directus_users w = users -> directus_roles w = roles ->
  consumed_points (prop "id" user) (limiter_consumed w) = 0 ->
  getUserID p bad = Ok uid ->
  filter_auth_login E bad (login_meta pn (prop "id" user))
  = Ok bad' ->
  provider_login p user bad' = Some e ->
  getUserID p good = Ok uid ->
  filter_auth_login E good (login_meta pn (prop "id" user))
  = Ok good' ->
  provider_login p (prop_set "status" (VStr "suspended") user) good' = None ->
  truthy (prop "tfa_secret" user) = false ->
  (forall payload meta, exists claims,
      filter_auth_jwt E payload meta = Ok claims) ->
  let w' := after_attempts E pn bad None budget w in
  let out := login E pn good None w' in
  directus_users w' = users
  /\ (exists res, out.1 = Ok res /\ id res = prop "id" user)
  /\ (forall u, u ∈ directus_users out.2 ->
        sql_eq (u_id u) (prop "id" user) -> u_status u = VStr "suspended").
Proof.
  intros Hu Hr Hzero Hbad Hfbad Hreject Hgood Hfgood Haccept Htfa Hjwt w' out.
  destruct (failed_attempts_consume bad bad' e budget Hbad Hfbad Hreject w)
    as (Hu' & Hr' & Hc'); try done; [lia |].
  fold w' in Hu', Hr', Hc'.
  destruct (login_over_budget_succeeds good good' w')
    as ((res & Hres & Hres_id & _) & Hsusp & _); try done; [lia |].
  split; [done |]. split; [eauto | done].
Qed.

End Lockout.

End LoginProps.

(** ** refresh *)

Section RefreshProps.

Variable E : Env.

Lemma refresh_joined_session sessions users shares roles row :
  row ∈ refresh_joined sessions users shares roles -> row.1.1.1 ∈ sessions.
Proof.
  destruct row as [[[s u] d] r]. unfold refresh_joined. cbn.
  intros Hrow. apply elem_of_left_join in Hrow as [Hrow _].
  apply elem_of_left_join in Hrow as [Hrow _].
  by apply elem_of_left_join in Hrow as [Hrow _].
Qed.

(** A record the query returns comes from a session with that token. *)
Lemma refresh_rows_session t now sessions users shares roles record :
  first (refresh_rows t now sessions users shares roles) = Some record ->
  exists s, s ∈ sessions /\ s_token s = t /\ now <= s_expires s.
Proof.
  intros Hrec. apply first_rows_Some in Hrec as (row & _ & Hrow & Hw).
  apply refresh_joined_session in Hrow. destruct Hw as (Ht & Hexp & _).
  eauto.
Qed.

Lemma refresh_rows_unknown_token t now sessions users shares roles :
  (forall s, s ∈ sessions -> s_token s <> t) ->
  first (refresh_rows t now sessions users shares roles) = None.
Proof.
  intros Hno. apply first_rows_None. intros row Hrow (Ht & _).
  apply refresh_joined_session in Hrow. by apply (Hno _ Hrow).
Qed.

(** A token that no session carries is refused. *)
Lemma refresh_unknown_token t w :
  (forall s, s ∈ directus_sessions w -> s_token s <> t) ->
  exists w', refresh E t w = (Throw InvalidCredentialsException, w').
Proof.
  intros Hno. unfold_service. destruct (negb (truthy (VStr t))); [eauto |].
  cbn. rewrite refresh_rows_unknown_token by assumption. cbn. eauto.
Qed.

(** What a successful refresh did to the sessions, read off the run. *)
Lemma refresh_rotation t w :
  let out := refresh E t w in
  match out.1 with
  | Ok res =>
      exists now,
        clock w <= now <= clock out.2
        /\ refreshToken res = nanoid E (rng w)
        /\ directus_sessions out.2
           = map (rotate t (refreshToken res) (now + REFRESH_TOKEN_TTL E))
               (directus_sessions w)
        /\ exists s, s ∈ directus_sessions w /\ s_token s = t
  | Throw _ => True
  end.
Proof.
  intros out. subst out. unfold_service. run.
  all: try exact I.
  all: refine (ex_intro _ _ (conj _ (conj eq_refl (conj eq_refl _)))).
  all: try lia.
  all: match goal with
       | H : first (refresh_rows _ _ _ _ _ _) = Some _ |- _ =>
           apply refresh_rows_session in H as (s & Hs & Ht & _); eauto
       end.
Qed.

Lemma rotate_other t new expires s : s_token s <> t -> rotate t new expires s = s.
Proof. intros Hne. unfold rotate. by rewrite decide_False. Qed.

Lemma rotate_token t new expires s :
  s_token s = t ->
  s_token (rotate t new expires s) = new
  /\ s_expires (rotate t new expires s) = expires
  /\ s_user (rotate t new expires s) = s_user s
  /\ s_share (rotate t new expires s) = s_share s
  /\ s_ip (rotate t new expires s) = s_ip s
  /\ s_user_agent (rotate t new expires s) = s_user_agent s.
Proof. intros Ht. unfold rotate. rewrite decide_True by exact Ht. done. Qed.

(** C4. A successful refresh with token t rewrites, in place, the session
    rows that carry t: in each of them the token becomes the freshly
    generated token that is returned to the caller and the expiry becomes
    now plus the refresh-token TTL, for an instant now of the call, while
    user, share, ip and user agent stay; the rows with another token and
    the number of rows are unchanged.  The fresh token being different
    from t, no row carries t any more, and a second refresh with t throws
    InvalidCredentials. *)
Theorem refresh_rotates_token t w res w' :
  refresh E t w = (Ok res, w') ->
  refreshToken res <> t ->
  exists now,
    clock w <= now <= clock w'
    /\ refreshToken res = nanoid E (rng w)
    /\ directus_sessions w'
       = map (rotate t (refreshToken res) (now + REFRESH_TOKEN_TTL E))
           (directus_sessions w)
    /\ length (directus_sessions w') = length (directus_sessions w)
    /\ (exists s, s ∈ directus_sessions w /\ s_token s = t)
    /\ (forall s, s ∈ directus_sessions w -> s_token s = t ->
          exists s', s' ∈ directus_sessions w'
            /\ s_token s' = refreshToken res
            /\ s_expires s' = now + REFRESH_TOKEN_TTL E
            /\ s_user s' = s_user s
            /\ s_share s' = s_share s
            /\ s_ip s' = s_ip s
            /\ s_user_agent s' = s_user_agent s)
    /\ (forall s, s ∈ directus_sessions w -> s_token s <> t ->
          s ∈ directus_sessions w')
    /\ (forall s', s' ∈ directus_sessions w' ->
          s' ∈ directus_sessions w
          \/ (s_token s' = refreshToken res
              /\ s_expires s' = now + REFRESH_TOKEN_TTL E))
    /\ (forall s, s ∈ directus_sessions w' -> s_token s <> t)
    /\ exists w'', refresh E t w' = (Throw InvalidCredentialsException, w'').
Proof.
  intros Hrun Hfresh.
  pose proof (refresh_rotation t w) as Hrot. cbv zeta in Hrot.
  rewrite Hrun in Hrot. cbn in Hrot.
  destruct Hrot as (now & Hnow & Htok & Hsess & s & Hs & Hst).
  assert (forall s', s' ∈ directus_sessions w' -> s_token s' <> t) as Hgone.
  { intros s' Hs'. rewrite Hsess in Hs'.
    apply list_elem_of_In, in_map_iff in Hs' as (s0 & <- & _).
    destruct (decide (s_token s0 = t)) as [Ht | Hne].
    - by destruct (rotate_token t (refreshToken res)
                     (now + REFRESH_TOKEN_TTL E) s0 Ht) as [-> _].
    - by rewrite rotate_other. }
  exists now. do 3 (split; [done |]).
  split; [by rewrite Hsess, length_map |].
  split; [eauto |].
  split; [| split; [| split; [| split; [done |]]]].
  - intros s0 Hs0 Ht.
    exists (rotate t (refreshToken res) (now + REFRESH_TOKEN_TTL E) s0).
    split; [| by apply rotate_token].
    rewrite Hsess. apply list_elem_of_In, in_map, list_elem_of_In, Hs0.
  - intros s0 Hs0 Hne. rewrite Hsess.
    apply list_elem_of_In, in_map_iff. exists s0.
    split; [by apply rotate_other | by apply list_elem_of_In].
  - intros s' Hs'. rewrite Hsess in Hs'.
    apply list_elem_of_In, in_map_iff in Hs' as (s0 & <- & Hs0).
    apply list_elem_of_In in Hs0.
    destruct (decide (s_token s0 = t)) as [Ht | Hne].
    + right. destruct (rotate_token t (refreshToken res)
                         (now + REFRESH_TOKEN_TTL E) s0 Ht) as (-> & -> & _).
      done.
    + left. by rewrite rotate_other.
  - by apply refresh_unknown_token.
Qed.

(** C5 (as amended). When no valid identity can be established (the token
    is empty, or no session row matches it with an unexpired session and an
    unexpired or absent share, or the matched row references neither a user
    nor a share) refresh throws InvalidCredentials and modifies no state.
    When an identity is established, refresh throws InvalidCredentials only
    if the provider's refresh hook or the auth.jwt hook throws it. *)
Theorem refresh_invalid_credentials t w :
  let out := refresh E t w in
  (no_identity t w = true ->
     out.1 = Throw InvalidCredentialsException
     /\ store out.2 = store w
     /\ limiter_consumed out.2 = limiter_consumed w
     /\ rng out.2 = rng w
     /\ trace out.2 = trace w)
  /\ (no_identity t w = false ->
      out.1 = Throw InvalidCredentialsException ->
      exists record,
        first (refresh_result t w) = Some record
        /\ ((exists p,
               truthy (prop "user_id" record) = true
               /\ providers E (prop "user_provider" record) = Some p
               /\ provider_refresh p (refresh_user record)
                  = Some InvalidCredentialsException)
            \/ (exists payload meta,
                  filter_auth_jwt E payload meta
                  = Throw InvalidCredentialsException))).
Proof.
  intros out. subst out. unfold no_identity, refresh_result.
  split.
  - intros Hno. unfold_service. run; absurd_branch; repeat split.
  - intros Hid. unfold_service. run; absurd_branch; intros Hthrow;
      try discriminate; simplify_eq; eexists; (split; [reflexivity |]); eauto 8.
Qed.

(** The query of [refresh] does not select the role of the share: the
    record has no [share_role] property. *)
Lemma refresh_columns_share_role row :
  prop "share_role" (refresh_columns row) = VUndefined.
Proof. destruct row as [[[s u] d] r]. reflexivity. Qed.

(** X20. What refresh hands to the auth.jwt hook for a session of a share
    without a user: the share scope is the collection and item of the
    share, the role is the share_role property of the record, which the
    query does not select and is therefore undefined, and the returned
    user id is the null user_id of the record. *)
Lemma refresh_share_payload t w record :
  truthy (VStr t) = true ->
  first (refresh_result t w) = Some record ->
  truthy (prop "share_id" record) = true ->
  truthy (prop "user_id" record) = false ->
  let out := refresh E t w in
  trace out.2
  = trace w ++
    [ EvFilterJwt
        (JObj [ ("id", JVal (prop "user_id" record));
                ("role", JVal VUndefined);
                ("app_access", JVal (prop "role_app_access" record));
                ("admin_access", JVal (prop "role_admin_access" record));
                ("share_scope",
                 JObj [ ("collection", JVal (prop "share_collection" record));
                        ("item", JVal (prop "share_item" record)) ]) ])
        {| m_status := "pending"; m_user := prop "user_id" record;
           m_provider := prop "user_provider" record;
           m_type := Some "refresh" |} ]
  /\ forall res, out.1 = Ok res -> id res = prop "user_id" record.
Proof.
  intros Ht Hrec Hshare Huser out. subst out. unfold refresh_result in Hrec.
  assert (prop "share_role" record = VUndefined) as Hrole.
  { apply first_rows_Some in Hrec as (row & -> & _).
    apply refresh_columns_share_role. }
  unfold_service. rewrite Ht. cbn. rewrite Hrec. cbn.
  rewrite Hshare, Huser, Hrole. cbn.
  run; (split; [reflexivity |]); intros res Hres; simplify_eq; reflexivity.
Qed.

(** The record [refresh] finds for the only session with token [t], when
    that session is unexpired, has no share and belongs to user [u]. *)
Lemma refresh_record_of_user_session t w s u :
  s ∈ directus_sessions w -> s_token s = t -> clock w <= s_expires s ->
  (forall s', s' ∈ directus_sessions w -> s_token s' = t -> s' = s) ->
  s_share s = VNull ->
  u ∈ directus_users w -> u_id u = s_user s -> truthy (u_id u) = true ->
  (forall u', u' ∈ directus_users w -> u_id u' = u_id u -> u' = u) ->
  exists r,
    first (refresh_result t w)
    = Some (refresh_columns (s, Some u, None, r)).
Proof.
  intros Hs Ht Hexp Hone Hshare Hu Hid Htruthy Huniq.
  assert (sql_eq (s_user s) (u_id u)) as Hjoin.
  { rewrite <- Hid. repeat split; intros Hnull; by rewrite Hnull in Htruthy. }
  assert (forall d, ~ sql_eq (s_share s) d) as Hnoshare.
  { intros d (Hnull & _). by apply Hnull. }
  unfold refresh_result, refresh_rows.
  destruct (left_join_total
              (fun sud r => sql_eq (r_id r) (col u_role sud.1.2)
                            \/ sql_eq (r_id r) (col d_role sud.2))
              (left_join (fun su d => sql_eq (s_share su.1) (d_id d))
                 (left_join (fun s u => sql_eq (s_user s) (u_id u))
                    (directus_sessions w) (directus_users w))
                 (directus_shares w))
              (directus_roles w) (s, Some u, None)) as [r0 Hr0].
  { apply elem_of_left_join. split; [| intros d _; apply Hnoshare].
    apply elem_of_left_join. by split. }
  destruct (first_rows_exists refresh_columns (refresh_where t (clock w))
              (refresh_joined (directus_sessions w) (directus_users w)
                 (directus_shares w) (directus_roles w))
              (s, Some u, None, r0)) as [record Hrec].
  { exact Hr0. }
  { split; [exact Ht |]. split; [exact Hexp |]. by left. }
  rewrite Hrec.
  apply first_rows_Some in Hrec as ([[[s' u'] d'] r'] & -> & Hrow & Hw).
  destruct Hw as (Ht' & _). cbn in Ht'.
  unfold refresh_joined in Hrow.
  apply elem_of_left_join in Hrow as [Hrow _].
  apply elem_of_left_join in Hrow as [Hrow Hd'].
  apply elem_of_left_join in Hrow as [Hs' Hu']. cbn in Hd'.
  assert (s' = s) as -> by (by apply Hone).
  destruct d' as [d'|]; [destruct Hd' as [_ Hd']; by apply Hnoshare in Hd' |].
  destruct u' as [u'|]; [| by apply (Hu' u) in Hjoin].
  destruct Hu' as [Hu' (_ & _ & Heq)].
  assert (u' = u) as -> by (apply Huniq; [done | congruence]).
  eauto.
Qed.

(** C10. refresh does not look at the status of the user.  For the only
    session row with token t, unexpired, without a share and owned by an
    existing user u, whatever the status of u (suspended, for one), refresh
    succeeds and issues new tokens, provided the provider of u is
    registered, its refresh hook returns for u, and the auth.jwt hook
    returns; the status only travels in the user object handed to the
    provider. *)
Theorem refresh_ignores_status t w s u p :
  truthy (VStr t) = true ->
  s ∈ directus_sessions w -> s_token s = t -> clock w <= s_expires s ->
  (forall s', s' ∈ directus_sessions w -> s_token s' = t -> s' = s) ->
  s_share s = VNull ->
  u ∈ directus_users w -> u_id u = s_user s -> truthy (u_id u) = true ->
  (forall u', u' ∈ directus_users w -> u_id u' = u_id u -> u' = u) ->
  providers E (u_provider u) = Some p ->
  (forall user, prop "id" user = u_id u -> provider_refresh p user = None) ->
  (forall payload meta, exists claims,
      filter_auth_jwt E payload meta = Ok claims) ->
  exists res w' user claims,
    refresh E t w = (Ok res, w')
    /\ id res = u_id u
    /\ refreshToken res = nanoid E (rng w)
    /\ accessToken res = jwt_sign E claims
    /\ prop "status" user = u_status u
    /\ new_events w w'
       = [ EvProviderRefresh (u_provider u) user;
           EvFilterJwt
             (JObj [ ("id", JVal (u_id u));
                     ("role", JVal (prop "role" user));
                     ("app_access", JVal (prop "app_access" user));
                     ("admin_access", JVal (prop "admin_access" user)) ])
             {| m_status := "pending"; m_user := u_id u;
                m_provider := u_provider u; m_type := Some "refresh" |} ]
    /\ (forall s', s' ∈ directus_sessions w' -> s_token s' = refreshToken res
                   \/ s_token s' <> t).
Proof.
  intros Ht Hs Hst Hexp Hone Hshare Hu Hid Htruthy Huniq Hp Hhook Hjwt.
  destruct (refresh_record_of_user_session t w s u) as [r Hrec]; try done.
  unfold refresh_result in Hrec.
  unfold new_events. unfold_service. rewrite Ht. cbn. rewrite Hrec. cbn.
  rewrite Htruthy. cbn. rewrite Hp. cbn.
  rewrite Hhook by reflexivity. cbn.
  change (truthy VNull) with false. cbn.
  match goal with
  | |- context [filter_auth_jwt E ?pl ?m] =>
      destruct (Hjwt pl m) as [claims Hclaims]; rewrite Hclaims
  end.
  cbn.
  eexists _, _, (refresh_user (refresh_columns (s, Some u, None, r))), claims.
  split; [reflexivity |]. cbn. rewrite <- !app_assoc, drop_app_length.
  do 5 (split; [reflexivity |]).
  intros s' Hs'.
  apply list_elem_of_In, in_map_iff in Hs' as (s0 & <- & _).
  destruct (decide (s_token s0 = t)); [by left | by right].
Qed.

End RefreshProps.

(** ** logout *)

Section LogoutProps.

Variable E : Env.

(** The query of [logout] finds nothing exactly when no session with the
    token is joined to a user. *)
Lemma logout_rows_None t sessions users :
  first (logout_rows t sessions users) = None
  <-> forall s u, s ∈ sessions -> u ∈ users -> s_token s = t ->
        ~ sql_eq (s_user s) (u_id u).
Proof.
  unfold logout_rows. rewrite first_rows_None. split.
  - intros Hno s u Hs Hu Ht Hjoin. apply (Hno (s, u)); [| exact Ht].
    apply elem_of_inner_join. done.
  - intros Hno [s u] Hsu Ht. apply elem_of_inner_join in Hsu as (Hs & Hu & Hj).
    by apply (Hno s u).
Qed.

Lemma logout_rows_unknown_token t sessions users :
  (forall s, s ∈ sessions -> s_token s <> t) ->
  first (logout_rows t sessions users) = None.
Proof.
  intros Hno. apply logout_rows_None. intros s u Hs _ Ht _.
  by apply (Hno s).
Qed.

(** C9 (as amended). logout is idempotent.  When the token matches no
    session that is joined to a user (no session at all, a session that
    belongs to a share, or a second logout), it completes without error
    and modifies no state.  When the token matches a session of a user,
    and the provider of the user is registered and its logout hook
    returns, it completes and deletes every session row with that token;
    a second logout with the token then completes and changes nothing. *)
Theorem logout_idempotent t w :
  match first (logout_rows t (directus_sessions w) (directus_users w)) with
  | None =>
      exists w',
        logout E t w = (Ok tt, w')
        /\ store w' = store w
        /\ limiter_consumed w' = limiter_consumed w
        /\ trace w' = trace w
  | Some user =>
      forall p,
        providers E (prop "provider" user) = Some p ->
        provider_logout p user = None ->
        exists w' w'',
          logout E t w = (Ok tt, w')
          /\ directus_sessions w'
             = filter (fun s => s_token s <> t) (directus_sessions w)
          /\ (forall s, s ∈ directus_sessions w' -> s_token s <> t)
          /\ directus_users w' = directus_users w
          /\ new_events w w' = [EvProviderLogout (prop "provider" user) user]
          /\ logout E t w' = (Ok tt, w'')
          /\ store w'' = store w'
          /\ trace w'' = trace w'
  end.
Proof.
  destruct (first (logout_rows t (directus_sessions w) (directus_users w)))
    as [user|] eqn:Hrec.
  - intros p Hp Hhook.
    assert (forall s, s ∈ filter (fun s => s_token s <> t) (directus_sessions w)
                      -> s_token s <> t) as Hgone.
    { intros s Hs. by apply list_elem_of_filter in Hs as [Hne _]. }
    eexists _, _. split.
    { unfold_service. cbn. rewrite Hrec. cbn. rewrite Hp. cbn.
      rewrite Hhook. cbn. reflexivity. }
    cbn. do 3 (split; [done |]).
    split; [unfold new_events; cbn; by rewrite drop_app_length |].
    unfold_service. cbn.
    rewrite (logout_rows_unknown_token t _ _ Hgone). cbn. done.
  - unfold_service. cbn. rewrite Hrec. cbn. eexists. repeat split.
Qed.

End LogoutProps.

(** * The properties on the concrete deployment *)

Section Deployment.

Import Fixture.

(** ** login *)


(** A rejected insert of the session ends the call without a stall as
    well, and so does a hook that throws. *)
Example login_failing_insert_skips_stall :
  let out :=
    login_with (fun step => match step with
                            | StepInsertSession => Some "insert"
                            | _ => None
                            end)
      env "default" ada_good None world in
  out.1 = Throw (ServiceError "insert")
  /\ stalls (new_events world out.2) = 0%nat
  /\ clock out.2 - clock world < 100.
Proof. vm_compute. repeat split. Qed.

(** A hook that throws ends the call without a stall as well. *)
Example login_failing_hook_skips_stall :
  let out := login env_failing_hook "default" ada_good None world in
  out.1 = Throw (ServiceError "hook")
  /\ stalls (new_events world out.2) = 0%nat
  /\ clock out.2 - clock world < 100.
Proof. vm_compute. repeat split. Qed.

(** C2, on the code: with a budget of three attempts, three logins of an
    active user with a wrong password are rejected and leave her active;
    the fourth login, with the correct password, suspends her in the
    store and nevertheless succeeds, where UserSuspended was required.
    Only the login after that one throws UserSuspended. *)
Theorem login_after_three_failures_succeeds :
  let w3 := after_attempts env "default" ada_bad None 3 world in
  let out := login env "default" ada_good None w3 in
  (login env "default" ada_bad None world).1
  = Throw InvalidCredentialsException
  /\ map u_status (directus_users w3)
     = [VStr "active"; VStr "active"; VStr "suspended"; VStr "active"]
  /\ consumed_points (VStr "u1") (limiter_consumed w3) = 3
  /\ out.1
     = Ok {| accessToken := "signed.jwt"; refreshToken := "rt";
             expires := 900000; id := VStr "u1" |}
  /\ map u_status (directus_users out.2)
     = [VStr "suspended"; VStr "active"; VStr "suspended"; VStr "active"]
  /\ (login env "default" ada_good None out.2).1
     = Throw UserSuspendedException.
Proof. vm_compute. repeat split. Qed.

Lemma login_persists_session_witness :
  exists row,
    row ∈ directus_sessions (login env "default" ada_good None world).2
    /\ s_token row = "rt"
    /\ s_user row = VStr "u1".
Proof.
  destruct (login_persists_session env "default" ada_good None world
              {| accessToken := "signed.jwt"; refreshToken := "rt";
                 expires := 900000; id := VStr "u1" |}
              (login env "default" ada_good None world).2)
    as (row & issued & p & uid & user & Hin & Htoken & Huser & _).
  - vm_compute. discriminate.
  - vm_compute. reflexivity.
  - exists row. split; [exact Hin |]. split; [exact Htoken | exact Huser].
Defined.

Lemma login_inactive_user_witness :
  exists w',
    login env "default" (credentials "locked@example.com" "correct horse")
      None world
    = (Throw UserSuspendedException, w').
Proof.
  destruct (login_inactive_user env "default"
              (credentials "locked@example.com" "correct horse") None world
              local (VStr "u3") (Some (login_columns (u3, role_admin)))
              (credentials "locked@example.com" "correct horse"))
    as (w' & Hrun & _).
  - reflexivity.
  - reflexivity.
  - reflexivity.
  - reflexivity.
  - vm_compute. discriminate.
  - exists w'. exact Hrun.
Defined.

Lemma login_second_factor_witness :
  (login env "default" (credentials "otp@example.com" "correct horse")
     None world).1
  = Throw (InvalidOTPException otp_required).
Proof.
  destruct (login_second_factor env "default"
              (credentials "otp@example.com" "correct horse") None world
              local (VStr "u2") (login_columns (u2, role_admin))
              (credentials "otp@example.com" "correct horse") (Some 3))
    as (Hrequired & _).
  - reflexivity.
  - reflexivity.
  - reflexivity.
  - reflexivity.
  - reflexivity.
  - reflexivity.
  - reflexivity.
  - reflexivity.
  - destruct Hrequired as [Hthrow _]; [reflexivity | exact Hthrow].
Defined.

(** The same user with a wrong and with the right code. *)
Example login_second_factor_codes :
  (login env "default" (credentials "otp@example.com" "correct horse")
     (Some "000000") world).1
  = Throw (InvalidOTPException otp_invalid)
  /\ exists res,
       (login env "default" (credentials "otp@example.com" "correct horse")
          (Some "123456") world).1 = Ok res.
Proof. vm_compute. split; [reflexivity | eauto]. Qed.

(** ** refresh *)

Lemma refresh_rotates_token_witness :
  exists w'',
    refresh env "rt-u1" (refresh env "rt-u1" world).2
    = (Throw InvalidCredentialsException, w'').
Proof.
  destruct (refresh_rotates_token env "rt-u1" world
              {| accessToken := "signed.jwt"; refreshToken := "rt";
                 expires := 900000; id := VStr "u1" |}
              (refresh env "rt-u1" world).2)
    as (now & _ & _ & _ & _ & _ & _ & _ & _ & _ & Hsecond).
  - vm_compute. reflexivity.
  - vm_compute. discriminate.
  - exact Hsecond.
Defined.

(** C5, as stated, fails: the session of a user is found, so an identity
    is established, and refresh throws InvalidCredentials because the
    refresh hook of the provider rejects. *)
Lemma refresh_rejected_by_provider :
  let out := refresh env "rt-u4" world in
  no_identity "rt-u4" world = false
  /\ out.1 = Throw InvalidCredentialsException.
Proof. vm_compute. split; reflexivity. Qed.

(** C6, on the code: the refresh of a session that belongs to a share
    hands the auth.jwt hook a payload whose role is undefined, where the
    role override of the share, role-viewer, was required; the share
    scope is the collection and item of the share and the returned user
    id is null. *)
Theorem refresh_share_role_undefined :
  let out := refresh env "rt-share" world in
  d_role share1 = VStr "role-viewer"
  /\ new_events world out.2
     = [ EvFilterJwt
           (JObj [ ("id", JVal VNull);
                   ("role", JVal VUndefined);
                   ("app_access", JVal (VBool false));
                   ("admin_access", JVal (VBool false));
                   ("share_scope",
                    JObj [ ("collection", JVal (VStr "articles"));
                           ("item", JVal (VStr "42")) ]) ])
           {| m_status := "pending"; m_user := VNull; m_provider := VNull;
              m_type := Some "refresh" |} ]
  /\ out.1
     = Ok {| accessToken := "signed.jwt"; refreshToken := "rt";
             expires := 900000; id := VNull |}.
Proof. vm_compute. repeat split. Qed.

Lemma refresh_ignores_status_witness :
  u_status u3 = VStr "suspended"
  /\ exists res w',
       refresh env "rt-u3" world = (Ok res, w') /\ id res = VStr "u3".
Proof.
  split; [reflexivity |].
  destruct (refresh_ignores_status env "rt-u3" world
              (session "rt-u3" (VStr "u3") VNull) u3 local)
    as (res & w' & user & claims & Hrun & Hid & _).
  - reflexivity.
  - apply list_elem_of_In. vm_compute. tauto.
  - reflexivity.
  - vm_compute. discriminate.
  - intros s' Hs' Ht. apply list_elem_of_In in Hs'.
    destruct Hs' as [<- | [<- | [<- | [<- | []]]]];
      first [reflexivity | discriminate Ht].
  - reflexivity.
  - apply list_elem_of_In. vm_compute. tauto.
  - reflexivity.
  - reflexivity.
  - intros u' Hu' Hid. apply list_elem_of_In in Hu'.
    destruct Hu' as [<- | [<- | [<- | [<- | []]]]];
      first [reflexivity | discriminate Hid].
  - reflexivity.
  - intros user _. reflexivity.
  - intros payload meta. exists payload. reflexivity.
  - exists res, w'. split; [exact Hrun | exact Hid].
Defined.

(** ** logout *)

(** C9, as stated, fails: the token of a session that belongs to a share
    matches a session row, and logout completes without deleting it. *)
Lemma logout_keeps_share_session :
  let out := logout env "rt-share" world in
  session "rt-share" VNull (VStr "share-1") ∈ directus_sessions world
  /\ out.1 = Ok tt
  /\ session "rt-share" VNull (VStr "share-1") ∈ directus_sessions out.2.
Proof.
  vm_compute. split; [| split; [reflexivity |]];
    apply list_elem_of_In; cbn; tauto.
Qed.

(** The session of a user is deleted, and the second logout is a no-op. *)
Example logout_twice :
  let once := logout env "rt-u1" world in
  let twice := logout env "rt-u1" once.2 in
  once.1 = Ok tt
  /\ map s_token (directus_sessions once.2) = ["rt-share"; "rt-u3"; "rt-u4"]
  /\ twice.1 = Ok tt
  /\ store twice.2 = store once.2.
Proof. vm_compute. repeat split. Qed.

End Deployment.

(** * Further properties *)

(** ** login: the effects of a call *)

Section LoginEffects.

Variable E : Env.

Lemma login_effects pn payload otp w :
  let out := login E pn payload otp w in
  match out.1 with
  | Ok res =>
      exists p uid user attempts claims issued swept touched,
        providers E (VStr pn) = Some p
        /\ getUserID p payload = Ok uid
        /\ first (login_rows uid (VStr pn) (directus_users w)
                    (directus_roles w)) = Some user
        /\ auth_login_attempts E = Ok attempts
        /\ filter_auth_jwt E (login_payload user)
             (login_jwt_meta pn (prop "id" user)) = Ok claims
        /\ res = {| accessToken := jwt_sign E claims;
                    refreshToken := nanoid E (rng w);
                    expires := ACCESS_TOKEN_TTL E;
                    id := prop "id" user |}
        /\ directus_sessions out.2
           = filter (fun s => ~ s_expires s < swept)
               (directus_sessions w
                ++ [login_session E (nanoid E (rng w)) (prop "id" user) issued])
        /\ directus_activity out.2
           = match accountability E with
             | Some acc =>
                 directus_activity w ++ [login_activity (prop "id" user) acc]
             | None => directus_activity w
             end
        /\ match attempts with
           | Some points =>
               limiter_points out.2 = points
               /\ consumed_points (prop "id" user) (limiter_consumed out.2) = 0
               /\ (directus_users out.2
                   = map (touch_user (prop "id" user) touched) (directus_users w)
                   \/ directus_users out.2
                      = map (touch_user (prop "id" user) touched)
                          (map (suspend_user (prop "id" user))
                             (directus_users w)))
           | None =>
               limiter_points out.2 = limiter_points w
               /\ limiter_consumed out.2 = limiter_consumed w
               /\ directus_users out.2
                  = map (touch_user (prop "id" user) touched) (directus_users w)
           end
        /\ (clock w <= issued <= swept /\ swept <= touched <= clock out.2)
  | Throw _ =>
      directus_sessions out.2 = directus_sessions w
      /\ directus_activity out.2 = directus_activity w
      /\ rng out.2 = rng w
      /\ ((directus_users out.2 = directus_users w
           /\ limiter_consumed out.2 = limiter_consumed w)
          \/ exists points, auth_login_attempts E = Ok (Some points))
  end.
Proof.
  intros out. subst out.
  unfold login_payload, login_jwt_meta, login_session, login_activity,
    suspend_user, touch_user.
  unfold_service. run.
  all: rewrite ?prop_prop_set_ne in * by reflexivity.
  all: clock_facts.
  all: try (do 3 (split; [reflexivity |]); first [left; split; reflexivity | right; eauto]).
  all: eexists _, _, _, _, _, _, _, _.
  all: (split; [reflexivity |]); (split; [eassumption |]);
       (split; [eassumption |]); (split; [reflexivity |]);
       (split; [eassumption |]); (split; [reflexivity |]);
       (split; [reflexivity |]); (split; [reflexivity |]).
  all: split;
       [ repeat split;
         first [ reflexivity
               | unfold consumed_points; by rewrite lookup_insert_eq
               | left; reflexivity
               | right; reflexivity ]
       | cbn; lia ].
Qed.


End LoginEffects.

Lemma touch_user_id uid t u : u_id (touch_user uid t u) = u_id u.
Proof. unfold touch_user. by destruct (decide _). Qed.

Lemma suspend_user_id uid u : u_id (suspend_user uid u) = u_id u.
Proof. unfold suspend_user. by destruct (decide _). Qed.

Lemma touch_user_status uid t u : u_status (touch_user uid t u) = u_status u.
Proof. unfold touch_user. by destruct (decide _). Qed.

Lemma touch_user_last_access uid t u :
  sql_eq (u_id u) uid -> u_last_access (touch_user uid t u) = VNum t.
Proof. intros Hmatch. unfold touch_user. by rewrite decide_True. Qed.

Section LoginExtras.

Variable E : Env.

(** X1. After a successful login under a configured attempt budget the
    limiter holds that budget and the counter of the user is zero. *)
Theorem login_success_resets_counter pn payload otp w res w' points :
  login E pn payload otp w = (Ok res, w') ->
  auth_login_attempts E = Ok (Some points) ->
  consumed_points (id res) (limiter_consumed w') = 0
  /\ limiter_points w' = points.
Proof.
  intros Hrun Hbudget.
  pose proof (login_effects E pn payload otp w) as Heff. cbv zeta in Heff.
  rewrite Hrun in Heff. cbn in Heff.
  destruct Heff as (p & uid & user & attempts & claims & issued & swept
                    & touched & _ & _ & _ & Hatt & _ & -> & _ & _ & Hlim & _).
  rewrite Hbudget in Hatt. injection Hatt as <-.
  destruct Hlim as (Hpoints & Hzero & _). by split.
Qed.

(** X2. When no attempt budget is configured (auth_login_attempts is
    null), a login, whatever its outcome, leaves the counters of the
    limiter alone and changes the status of no user. *)
Theorem login_without_budget pn payload otp w :
  auth_login_attempts E = Ok None ->
  let out := login E pn payload otp w in
  limiter_consumed out.2 = limiter_consumed w
  /\ map u_status (directus_users out.2) = map u_status (directus_users w).
Proof.
  intros Hnone out. subst out.
  pose proof (login_effects E pn payload otp w) as Heff. cbv zeta in Heff.
  destruct (login E pn payload otp w) as [[res|e] w']; cbn in *.
  - destruct Heff as (p & uid & user & attempts & claims & issued & swept
                      & touched & _ & _ & _ & Hatt & _ & _ & _ & _ & Hlim & _).
    rewrite Hnone in Hatt. injection Hatt as <-.
    destruct Hlim as (_ & Hconsumed & Husers). split; [done |].
    rewrite Husers, map_map. apply map_ext. intros u.
    apply touch_user_status.
  - destruct Heff as (_ & _ & _ & [[Husers Hconsumed] | [points Hsome]]).
    + by rewrite Husers.
    + congruence.
Qed.


(** X4. A successful login sweeps the expired sessions: every session
    that is left was there before or is the new one, and none of them had
    expired when the call started. *)
Theorem login_sweeps_expired_sessions pn payload otp w res w' :
  login E pn payload otp w = (Ok res, w') ->
  forall s, s ∈ directus_sessions w' ->
    clock w <= s_expires s
    /\ (s ∈ directus_sessions w \/ s_token s = refreshToken res).
Proof.
  intros Hrun s Hs.
  pose proof (login_effects E pn payload otp w) as Heff. cbv zeta in Heff.
  rewrite Hrun in Heff. cbn in Heff.
  destruct Heff as (p & uid & user & attempts & claims & issued & swept
                    & touched & _ & _ & _ & _ & _ & -> & Hsessions & _ & _
                    & Htime).
  rewrite Hsessions in Hs. apply list_elem_of_filter in Hs as [Hlive Hs].
  split; [lia |].
  apply elem_of_app in Hs as [Hs | Hs]; [by left |].
  apply list_elem_of_singleton in Hs. subst s. by right.
Qed.

(** X5. A successful login records one login activity for the user, with
    the ip and user agent of the caller, when the service has an
    accountability, and none when it has not. *)
Theorem login_records_activity pn payload otp w res w' :
  login E pn payload otp w = (Ok res, w') ->
  directus_activity w'
  = match accountability E with
    | Some acc => directus_activity w ++ [login_activity (id res) acc]
    | None => directus_activity w
    end.
Proof.
  intros Hrun.
  pose proof (login_effects E pn payload otp w) as Heff. cbv zeta in Heff.
  rewrite Hrun in Heff. cbn in Heff.
  destruct Heff as (p & uid & user & attempts & claims & issued & swept
                    & touched & _ & _ & _ & _ & _ & -> & _ & Hactivity & _).
  exact Hactivity.
Qed.

(** X6. The access token a successful login returns is the signature of
    what the auth.jwt hook made of the payload id, role, app_access,
    admin_access of the selected user and role row; the returned expiry is
    the access-token TTL and the returned id is the id of that row. *)
Theorem login_token_payload pn payload otp w res w' :
  login E pn payload otp w = (Ok res, w') ->
  exists p uid user claims,
    providers E (VStr pn) = Some p
    /\ getUserID p payload = Ok uid
    /\ first (login_rows uid (VStr pn) (directus_users w) (directus_roles w))
       = Some user
    /\ filter_auth_jwt E (login_payload user)
         (login_jwt_meta pn (prop "id" user)) = Ok claims
    /\ accessToken res = jwt_sign E claims
    /\ expires res = ACCESS_TOKEN_TTL E
    /\ id res = prop "id" user.
Proof.
  intros Hrun.
  pose proof (login_effects E pn payload otp w) as Heff. cbv zeta in Heff.
  rewrite Hrun in Heff. cbn in Heff.
  destruct Heff as (p & uid & user & attempts & claims & issued & swept
                    & touched & Hp & Hid & Hsel & _ & Hjwt & -> & _).
  exists p, uid, user, claims. done.
Qed.

(** X7. A successful login sets last_access of the rows of the user to one
    instant of the call; the ids of the users are unchanged. *)
Theorem login_touches_last_access pn payload otp w res w' :
  login E pn payload otp w = (Ok res, w') ->
  exists t,
    clock w <= t <= clock w'
    /\ map u_id (directus_users w') = map u_id (directus_users w)
    /\ forall u, u ∈ directus_users w' -> sql_eq (u_id u) (id res) ->
         u_last_access u = VNum t.
Proof.
  intros Hrun.
  pose proof (login_effects E pn payload otp w) as Heff. cbv zeta in Heff.
  rewrite Hrun in Heff. cbn in Heff.
  destruct Heff as (p & uid & user & attempts & claims & issued & swept
                    & touched & _ & _ & _ & _ & _ & -> & _ & _ & Hlim & Htime).
  cbn.
  assert (directus_users w'
          = map (touch_user (prop "id" user) touched) (directus_users w)
          \/ directus_users w'
             = map (touch_user (prop "id" user) touched)
                 (map (suspend_user (prop "id" user)) (directus_users w)))
    as Husers.
  { destruct attempts; [destruct Hlim as (_ & _ & Hu); exact Hu |].
    destruct Hlim as (_ & _ & Hu). by left. }
  exists touched. split; [lia |]. split.
  - destruct Husers as [-> | ->]; rewrite ?map_map; apply map_ext; intros u;
      by rewrite touch_user_id, ?suspend_user_id.
  - intros u Hu Hmatch.
    assert (exists a, u = touch_user (prop "id" user) touched a) as [a ->].
    { destruct Husers as [Heq | Heq]; rewrite Heq in Hu;
        apply list_elem_of_In, in_map_iff in Hu as (a & <- & _); eauto. }
    rewrite touch_user_id in Hmatch. by apply touch_user_last_access.
Qed.

End LoginExtras.

(** ** login: which user is found *)

Section LoginLookup.

(** X8. The query of login finds no user exactly when no user row has the
    requested id, the requested provider name and a role that exists in
    directus_roles: a user under another provider, or whose role is null
    or missing, is not found. *)
Theorem login_rows_None uid pn users roles :
  first (login_rows uid (VStr pn) users roles) = None
  <-> forall u r, u ∈ users -> r ∈ roles ->
        sql_eq (u_id u) uid -> sql_eq (u_provider u) (VStr pn) ->
        ~ sql_eq (u_role u) (r_id r).
Proof.
  unfold login_rows. rewrite first_rows_None. split.
  - intros Hno u r Hu Hr Hid Hprov Hrole. apply (Hno (u, r)); [| done].
    by apply elem_of_inner_join.
  - intros Hno [u r] Hur [Hid Hprov].
    apply elem_of_inner_join in Hur as (Hu & Hr & Hrole).
    by apply (Hno u r).
Qed.

(** The row that is found carries the columns of such a user and of her
    role. *)
Lemma login_rows_Some uid pn users roles user :
  first (login_rows uid (VStr pn) users roles) = Some user ->
  exists u r,
    user = login_columns (u, r) /\ u ∈ users /\ r ∈ roles
    /\ u_id u = uid /\ u_provider u = VStr pn /\ u_role u = r_id r.
Proof.
  intros Hrec. apply first_rows_Some in Hrec as ([u r] & -> & Hur & Hid & Hprov).
  apply elem_of_inner_join in Hur as (Hu & Hr & Hrole).
  destruct Hid as (_ & _ & Hid), Hprov as (_ & _ & Hprov),
    Hrole as (_ & _ & Hrole).
  exists u, r. done.
Qed.

End LoginLookup.

(** ** refresh: effects and refusals *)

Section RefreshExtras.

Variable E : Env.

Lemma refresh_effects t w :
  let out := refresh E t w in
  match out.1 with
  | Ok res =>
      exists record touched,
        first (refresh_result t w) = Some record
        /\ id res = prop "user_id" record
        /\ expires res = ACCESS_TOKEN_TTL E
        /\ clock w <= touched <= clock out.2
        /\ directus_users out.2
           = (if truthy (prop "user_id" record)
              then map (touch_user (prop "user_id" record) touched)
                     (directus_users w)
              else directus_users w)
        /\ directus_roles out.2 = directus_roles w
        /\ directus_shares out.2 = directus_shares w
        /\ directus_activity out.2 = directus_activity w
        /\ limiter_consumed out.2 = limiter_consumed w
        /\ rng out.2 = S (rng w)
        /\ stalls (new_events w out.2) = 0%nat
  | Throw _ =>
      store out.2 = store w
      /\ limiter_consumed out.2 = limiter_consumed w
      /\ rng out.2 = rng w
  end.
Proof.
  intros out. subst out. unfold refresh_result, touch_user, new_events.
  unfold_service. run.
  all: try (repeat split; reflexivity).
  all: absurd_branch.
  all: rewrite <- ?app_assoc, ?drop_app_length.
  all: eexists _, _; (split; [reflexivity |]);
       repeat match goal with
         | H : truthy ?x = _ |- context [truthy ?x] => rewrite H
         end;
       (split; [reflexivity |]); (split; [reflexivity |]);
       apply and_comm; split;
       [ repeat split; reflexivity
       | first [ cbn; lia | split; [apply Z.le_refl | cbn; lia] ] ].
Qed.



(** X10. A successful refresh of a session of a user sets last_access of
    the rows of that user to an instant of the call; a successful refresh
    of a session without a user leaves directus_users alone.  In both
    cases roles, shares, activity and the limiter are untouched and the
    timing normalizer is not entered. *)
Theorem refresh_touches_last_access t w res w' :
  refresh E t w = (Ok res, w') ->
  exists touched,
    clock w <= touched <= clock w'
    /\ directus_users w'
       = (if truthy (id res)
          then map (touch_user (id res) touched) (directus_users w)
          else directus_users w)
    /\ directus_roles w' = directus_roles w
    /\ directus_shares w' = directus_shares w
    /\ directus_activity w' = directus_activity w
    /\ limiter_consumed w' = limiter_consumed w
    /\ stalls (new_events w w') = 0%nat.
Proof.
  intros Hrun.
  pose proof (refresh_effects t w) as Heff. cbv zeta in Heff.
  rewrite Hrun in Heff. cbn in Heff.
  destruct Heff as (record & touched & _ & Hid & _ & Htime & Husers & Hroles
                    & Hshares & Hact & Hlim & _ & Hstall).
  exists touched. rewrite Hid. done.
Qed.

(** X11. A token whose sessions have all expired is refused with
    InvalidCredentials, and nothing is written. *)
Theorem refresh_expired_session t w :
  (forall s, s ∈ directus_sessions w -> s_token s = t ->
     s_expires s < clock w) ->
  exists w',
    refresh E t w = (Throw InvalidCredentialsException, w')
    /\ store w' = store w.
Proof.
  intros Hexpired.
  assert (first (refresh_rows t (clock w) (directus_sessions w)
                   (directus_users w) (directus_shares w) (directus_roles w))
          = None) as Hnone.
  { apply first_rows_None. intros row Hrow (Ht & Hlive & _).
    apply refresh_joined_session in Hrow.
    specialize (Hexpired _ Hrow Ht). lia. }
  unfold_service. destruct (negb (truthy (VStr t))); [eauto |].
  cbn. rewrite Hnone. cbn. eauto.
Qed.

(** X12. A token whose sessions all belong to shares that have expired is
    refused with InvalidCredentials, and nothing is written. *)
Theorem refresh_expired_share t w :
  (forall s, s ∈ directus_sessions w -> s_token s = t ->
     exists d, d ∈ directus_shares w /\ sql_eq (s_share s) (d_id d)) ->
  (forall s d, s ∈ directus_sessions w -> d ∈ directus_shares w ->
     s_token s = t -> sql_eq (s_share s) (d_id d) ->
     exists x, d_date_expired d = VNum x /\ x < clock w) ->
  exists w',
    refresh E t w = (Throw InvalidCredentialsException, w')
    /\ store w' = store w.
Proof.
  intros Hshare Hexpired.
  assert (first (refresh_rows t (clock w) (directus_sessions w)
                   (directus_users w) (directus_shares w) (directus_roles w))
          = None) as Hnone.
  { apply first_rows_None. intros [[[s u] d] r] Hrow (Ht & _ & Hlive).
    cbn in Ht, Hlive. unfold refresh_joined in Hrow.
    apply elem_of_left_join in Hrow as [Hrow _].
    apply elem_of_left_join in Hrow as [Hrow Hd].
    apply elem_of_left_join in Hrow as [Hs _]. cbn in Hd.
    destruct d as [d|].
    - destruct Hd as [Hin Hjoin].
      destruct (Hexpired s d Hs Hin Ht Hjoin) as (x & Hx & Hlt).
      cbn in Hlive. rewrite Hx in Hlive. destruct Hlive as [? | Hge];
        [done | cbn in Hge; lia].
    - destruct (Hshare s Hs Ht) as (d & Hin & Hjoin). by apply (Hd d). }
  unfold_service. destruct (negb (truthy (VStr t))); [eauto |].
  cbn. rewrite Hnone. cbn. eauto.
Qed.

End RefreshExtras.

(** ** logout: failures, and refresh afterwards *)

Section LogoutExtras.

Variable E : Env.

(** X13. When the token matches a session of a user and the logout hook
    of the provider throws, or the provider of the user is not
    registered, logout throws that error (ConfigurationError for the
    unknown provider) and the session is not deleted. *)
Theorem logout_failure_keeps_session t w user :
  first (logout_rows t (directus_sessions w) (directus_users w)) = Some user ->
  let out := logout E t w in
  match providers E (prop "provider" user) with
  | None => out.1 = Throw ConfigurationError /\ store out.2 = store w
  | Some p =>
      forall e, provider_logout p user = Some e ->
        out.1 = Throw e /\ store out.2 = store w
  end.
Proof.
  intros Hrec out. subst out. unfold_service. cbn. rewrite Hrec. cbn.
  destruct (providers E (prop "provider" user)) as [p|]; cbn; [| done].
  intros e ->. cbn. done.
Qed.

(** X14. After a logout that found the session of a user and completed,
    refresh with the same token throws InvalidCredentials. *)
Theorem logout_then_refresh t w user w' :
  first (logout_rows t (directus_sessions w) (directus_users w)) = Some user ->
  logout E t w = (Ok tt, w') ->
  exists w'', refresh E t w' = (Throw InvalidCredentialsException, w'').
Proof.
  intros Hrec Hrun.
  assert (directus_sessions w'
          = filter (fun s => s_token s <> t) (directus_sessions w)) as Hgone.
  { revert Hrun. unfold_service. cbn. rewrite Hrec. cbn.
    destruct (providers E (prop "provider" user)) as [p|]; cbn; [| done].
    destruct (provider_logout p user); cbn; [done |].
    intros [= <-]. reflexivity. }
  apply refresh_unknown_token. intros s Hs. rewrite Hgone in Hs.
  by apply list_elem_of_filter in Hs as [Hne _].
Qed.

End LogoutExtras.

(** ** verifyPassword *)

Section VerifyPasswordExtras.

Variable E : Env.

(** X15. verifyPassword for an id that no user has throws
    InvalidCredentials without calling any provider and without writing
    anything. *)
Theorem verifyPassword_unknown_user userID password w :
  (forall u, u ∈ directus_users w -> ~ sql_eq (u_id u) userID) ->
  exists w',
    verifyPassword E userID password w = (Throw InvalidCredentialsException, w')
    /\ trace w' = trace w
    /\ store w' = store w.
Proof.
  intros Hno.
  assert (first (verify_rows userID (directus_users w)) = None) as Hnone.
  { apply first_rows_None. exact Hno. }
  unfold_service. cbn. rewrite Hnone. cbn. eauto.
Qed.

(** X16. verifyPassword for the id of an existing user hands the selected
    columns of that user and the password to the verify capability of the
    provider of the user, and returns or throws as that capability does,
    whatever the status of the user; it writes nothing and does not enter
    the timing normalizer. *)
Theorem verifyPassword_delegates userID password w u p :
  u ∈ directus_users w -> sql_eq (u_id u) userID ->
  (forall u', u' ∈ directus_users w -> sql_eq (u_id u') userID -> u' = u) ->
  providers E (u_provider u) = Some p ->
  let out := verifyPassword E userID password w in
  out.1 = match provider_verify p (verify_columns u) password with
          | None => Ok tt
          | Some e => Throw e
          end
  /\ new_events w out.2
     = [EvProviderVerify (u_provider u) (verify_columns u) password]
  /\ store out.2 = store w.
Proof.
  intros Hu Hid Huniq Hp out. subst out.
  assert (first (verify_rows userID (directus_users w))
          = Some (verify_columns u)) as Hrec.
  { destruct (first_rows_exists verify_columns
                (fun u => sql_eq (u_id u) userID) (directus_users w) u Hu Hid)
      as [user Hrec].
    unfold verify_rows. rewrite Hrec.
    apply first_rows_Some in Hrec as (u' & -> & Hu' & Hid').
    by rewrite (Huniq u' Hu' Hid'). }
  unfold new_events. unfold_service. cbn. rewrite Hrec. cbn.
  rewrite Hp. cbn.
  destruct (provider_verify p (verify_columns u) password); cbn;
    by rewrite drop_app_length.
Qed.

End VerifyPasswordExtras.

(** ** login, then refresh *)

Section LoginThenRefresh.

Variable E : Env.

(** What [refresh] does once its query has returned the record of a
    session of user [u] without a share. *)
Lemma refresh_of_user_record t w s u r p :
  truthy (VStr t) = true ->
  first (refresh_result t w) = Some (refresh_columns (s, Some u, None, r)) ->
  truthy (u_id u) = true ->
  providers E (u_provider u) = Some p ->
  (forall user, prop "id" user = u_id u -> provider_refresh p user = None) ->
  (forall payload meta, exists claims,
      filter_auth_jwt E payload meta = Ok claims) ->
  exists res w',
    refresh E t w = (Ok res, w')
    /\ id res = u_id u
    /\ refreshToken res = nanoid E (rng w).
Proof.
  intros Ht Hrec Htruthy Hp Hhook Hjwt. unfold refresh_result in Hrec.
  unfold_service. rewrite Ht. cbn. rewrite Hrec. cbn.
  rewrite Htruthy. cbn. rewrite Hp. cbn.
  rewrite Hhook by reflexivity. cbn.
  change (truthy VNull) with false. cbn.
  match goal with
  | |- context [filter_auth_jwt E ?pl ?m] =>
      destruct (Hjwt pl m) as [claims Hclaims]; rewrite Hclaims
  end.
  cbn. eexists _, _. repeat split.
Qed.

Lemma login_user_update_keeps uid t (f : UserRow -> UserRow) :
  f = touch_user uid t \/ f = (fun u => touch_user uid t (suspend_user uid u)) ->
  forall u, u_id (f u) = u_id u /\ u_provider (f u) = u_provider u.
Proof.
  intros [-> | ->] u; unfold touch_user, suspend_user;
    repeat destruct (decide _); done.
Qed.

(** X17. The refresh token a successful login returns is accepted by
    refresh: when the token is not empty and no older session carries it,
    user ids are unique, the refresh-token TTL is not shorter than the
    login took, and the refresh hook of the provider and the auth.jwt hook
    return, a refresh with that token right after the login succeeds for
    the same user and returns the next token. *)
Theorem login_then_refresh pn payload otp w res w1 p :
  login E pn payload otp w = (Ok res, w1) ->
  truthy (VStr (refreshToken res)) = true ->
  truthy (id res) = true ->
  (forall s, s ∈ directus_sessions w -> s_token s <> refreshToken res) ->
  (forall u u', u ∈ directus_users w -> u' ∈ directus_users w ->
     u_id u = u_id u' -> u = u') ->
  clock w1 <= clock w + REFRESH_TOKEN_TTL E ->
  providers E (VStr pn) = Some p ->
  (forall user, prop "id" user = id res -> provider_refresh p user = None) ->
  (forall payload meta, exists claims,
      filter_auth_jwt E payload meta = Ok claims) ->
  exists res2 w2,
    refresh E (refreshToken res) w1 = (Ok res2, w2)
    /\ id res2 = id res
    /\ refreshToken res2 = nanoid E (rng w1).
Proof.
  intros Hrun Htoken Htruthy Hfresh Huniq Httl Hp Hhook Hjwt.
  pose proof (login_effects E pn payload otp w) as Heff. cbv zeta in Heff.
  rewrite Hrun in Heff. cbn in Heff.
  destruct Heff as (p0 & uid & user & attempts & claims & issued & swept
                    & touched & _ & _ & Hsel & _ & _ & -> & Hsessions & _
                    & Hlim & Htime).
  cbn in *.
  apply login_rows_Some in Hsel as (u0 & r0 & -> & Hu0 & _ & _ & Hprov & _).
  change (prop "id" (login_columns (u0, r0))) with (u_id u0) in *.
  assert (exists f,
             directus_users w1 = map f (directus_users w)
             /\ forall u, u_id (f u) = u_id u
                          /\ u_provider (f u) = u_provider u)
    as (f & Husers & Hkeeps).
  { assert (directus_users w1
            = map (touch_user (u_id u0) touched) (directus_users w)
            \/ directus_users w1
               = map (touch_user (u_id u0) touched)
                   (map (suspend_user (u_id u0)) (directus_users w)))
      as [Heq | Heq].
    { destruct attempts; [destruct Hlim as (_ & _ & Hu); exact Hu |].
      destruct Hlim as (_ & _ & Hu). by left. }
    - exists (touch_user (u_id u0) touched). split; [done |].
      apply (login_user_update_keeps (u_id u0) touched). by left.
    - exists (fun u => touch_user (u_id u0) touched (suspend_user (u_id u0) u)).
      split; [by rewrite Heq, map_map |].
      apply (login_user_update_keeps (u_id u0) touched). by right. }
  set (s1 := login_session E (nanoid E (rng w)) (u_id u0) issued) in *.
  destruct (refresh_record_of_user_session (nanoid E (rng w)) w1 s1 (f u0))
    as [r Hrec].
  - rewrite Hsessions. apply list_elem_of_filter. split; [cbn; lia |].
    apply elem_of_app. right. by apply list_elem_of_singleton.
  - reflexivity.
  - cbn. lia.
  - intros s' Hs' Ht. rewrite Hsessions in Hs'.
    apply list_elem_of_filter in Hs' as [_ Hs'].
    apply elem_of_app in Hs' as [Hs' | Hs'].
    + by destruct (Hfresh s' Hs').
    + by apply list_elem_of_singleton in Hs'.
  - reflexivity.
  - rewrite Husers. apply list_elem_of_In, in_map, list_elem_of_In, Hu0.
  - cbn. by destruct (Hkeeps u0) as [-> _].
  - by destruct (Hkeeps u0) as [-> _].
  - intros u' Hu' Hid. rewrite Husers in Hu'.
    apply list_elem_of_In, in_map_iff in Hu' as (a & <- & Ha).
    apply list_elem_of_In in Ha. f_equal. apply Huniq; [done | done |].
    destruct (Hkeeps a) as [<- _]. destruct (Hkeeps u0) as [<- _]. done.
  - destruct (refresh_of_user_record (nanoid E (rng w)) w1 s1 (f u0) r p)
      as (res2 & w2 & Hrun2 & Hid2 & Htok2); try done.
    + by destruct (Hkeeps u0) as [-> _].
    + destruct (Hkeeps u0) as [_ ->]. by rewrite Hprov.
    + intros user' Hid'. apply Hhook. rewrite Hid'.
      by destruct (Hkeeps u0) as [-> _].
    + exists res2, w2. split; [done |]. split; [| done].
      rewrite Hid2. by destruct (Hkeeps u0) as [-> _].
Qed.

End LoginThenRefresh.

(** ** login: counting rejected attempts *)

Section RejectedAttempts.

Variable E : Env.

(** X21. Under a budget, each login of an active user that the provider
    rejects consumes one point of that user: after n such attempts that
    stay within the budget the counter has grown by n and directus_users is
    unchanged, so nobody has been suspended. *)
Theorem login_rejected_attempts_counted pn p uid user budget payload payload'
    e n w :
  providers E (VStr pn) = Some p ->
  first (login_rows uid (VStr pn) (directus_users w) (directus_roles w))
  = Some user ->
  prop "status" user = VStr "active" ->
  auth_login_attempts E = Ok (Some (Z.of_nat budget)) ->
  getUserID p payload = Ok uid ->
  filter_auth_login E payload (login_meta pn (prop "id" user)) = Ok payload' ->
  provider_login p user payload' = Some e ->
  consumed_points (prop "id" user) (limiter_consumed w) + Z.of_nat n
  <= Z.of_nat budget ->
  let w' := after_attempts E pn payload None n w in
  directus_users w' = directus_users w
  /\ consumed_points (prop "id" user) (limiter_consumed w')
     = consumed_points (prop "id" user) (limiter_consumed w) + Z.of_nat n.
Proof.
  intros Hp Hsel Hactive Hbudget Hid Hf Hreject Hroom w'.
  destruct (failed_attempts_consume E pn p uid user (directus_users w)
              (directus_roles w) budget Hp Hsel Hactive Hbudget
              payload payload' e n Hid Hf Hreject w)
    as (Husers & _ & Hcount); try done.
Qed.

End RejectedAttempts.

(** ** The further properties on the concrete deployment *)

Section DeploymentExtras.

Import Fixture.

Lemma login_success_resets_counter_witness :
  consumed_points (VStr "u1")
    (limiter_consumed (login env "default" ada_good None world).2) = 0.
Proof.
  destruct (login_success_resets_counter env "default" ada_good None world
              {| accessToken := "signed.jwt"; refreshToken := "rt";
                 expires := 900000; id := VStr "u1" |}
              (login env "default" ada_good None world).2 3)
    as [Hzero _].
  - vm_compute. reflexivity.
  - reflexivity.
  - exact Hzero.
Defined.

Lemma login_without_budget_witness :
  limiter_consumed (login env_no_budget "default" ada_bad None world).2
  = limiter_consumed world.
Proof.
  destruct (login_without_budget env_no_budget "default" ada_bad None world)
    as [Hsame _].
  - reflexivity.
  - exact Hsame.
Defined.


(** The sweep rejects: login throws, and the new session stays. *)
Example login_failing_sweep_leaves_session :
  let out := login_with sweep_fails env "default" ada_good None world in
  out.1 = Throw (ServiceError "sweep")
  /\ map s_token (directus_sessions out.2)
     = map s_token (directus_sessions world) ++ [nanoid env (rng world)].
Proof. vm_compute. repeat split. Qed.

Lemma login_sweeps_expired_sessions_witness :
  clock world_stale <= s_expires (session "rt-u1" (VStr "u1") VNull).
Proof.
  destruct (login_sweeps_expired_sessions env "default" ada_good None
              world_stale
              {| accessToken := "signed.jwt"; refreshToken := "rt";
                 expires := 900000; id := VStr "u1" |}
              (login env "default" ada_good None world_stale).2)
    with (s := session "rt-u1" (VStr "u1") VNull) as [Hlive _].
  - vm_compute. reflexivity.
  - apply list_elem_of_In. vm_compute. tauto.
  - exact Hlive.
Defined.

(** The session that had expired is gone after the login. *)
Example login_sweeps_old_session :
  old_session ∈ directus_sessions world_stale
  /\ map s_token
       (directus_sessions (login env "default" ada_good None world_stale).2)
     = ["rt-u1"; "rt-share"; "rt-u3"; "rt-u4"; "rt"].
Proof. split; [left | vm_compute; reflexivity]. Qed.

Lemma login_records_activity_witness :
  directus_activity (login env "default" ada_good None world).2
  = [ login_activity (VStr "u1")
        {| acc_ip := VStr "127.0.0.1"; acc_userAgent := VStr "curl" |} ].
Proof.
  exact (login_records_activity env "default" ada_good None world
           {| accessToken := "signed.jwt"; refreshToken := "rt";
              expires := 900000; id := VStr "u1" |}
           (login env "default" ada_good None world).2
           ltac:(vm_compute; reflexivity)).
Defined.

Lemma login_token_payload_witness :
  exists user claims,
    filter_auth_jwt env (login_payload user)
      (login_jwt_meta "default" (prop "id" user)) = Ok claims
    /\ prop "role" user = VStr "role-admin".
Proof.
  destruct (login_token_payload env "default" ada_good None world
              {| accessToken := "signed.jwt"; refreshToken := "rt";
                 expires := 900000; id := VStr "u1" |}
              (login env "default" ada_good None world).2)
    as (p & uid & user & claims & Hp & Hid & Hsel & Hjwt & _).
  - vm_compute. reflexivity.
  - exists user, claims. split; [exact Hjwt |].
    injection Hp as <-. injection Hid as <-.
    vm_compute in Hsel. injection Hsel as <-. reflexivity.
Defined.

Lemma login_touches_last_access_witness :
  exists t,
    1000 <= t
    /\ map u_id (directus_users (login env "default" ada_good None world).2)
       = map u_id (directus_users world).
Proof.
  destruct (login_touches_last_access env "default" ada_good None world
              {| accessToken := "signed.jwt"; refreshToken := "rt";
                 expires := 900000; id := VStr "u1" |}
              (login env "default" ada_good None world).2)
    as (t & [Hlow _] & Hids & _).
  - vm_compute. reflexivity.
  - exists t. split; [exact Hlow | exact Hids].
Defined.

Lemma login_provider_rejects_witness :
  (login env "default" ada_bad None world).1
  = Throw InvalidCredentialsException.
Proof.
  destruct (login_provider_rejects env "default" ada_bad None world local
              (VStr "u1") (login_columns (u1, role_admin)) ada_bad (Some 3))
    with (e := InvalidCredentialsException) as [Hthrow _].
  - reflexivity.
  - reflexivity.
  - reflexivity.
  - reflexivity.
  - reflexivity.
  - reflexivity.
  - reflexivity.
  - exact Hthrow.
Defined.

Lemma login_rejected_attempts_counted_witness :
  consumed_points (VStr "u1")
    (limiter_consumed (after_attempts env "default" ada_bad None 3 world))
  = 3.
Proof.
  destruct (login_rejected_attempts_counted env "default" local (VStr "u1")
              (login_columns (u1, role_admin)) 3 ada_bad ada_bad
              InvalidCredentialsException 3 world)
    as [_ Hcount].
  - reflexivity.
  - reflexivity.
  - reflexivity.
  - reflexivity.
  - reflexivity.
  - reflexivity.
  - reflexivity.
  - vm_compute. discriminate.
  - exact Hcount.
Defined.

Lemma login_after_lockout_succeeds_witness :
  exists res,
    (login env "default" ada_good None
       (after_attempts env "default" ada_bad None 3 world)).1 = Ok res.
Proof.
  destruct (login_after_lockout_succeeds env "default" local (VStr "u1")
              (login_columns (u1, role_admin)) (directus_users world)
              (directus_roles world) 3)
    with (bad := ada_bad) (bad' := ada_bad) (e := InvalidCredentialsException)
         (good := ada_good) (good' := ada_good) (w := world)
    as (_ & (res & Hres & _) & _).
  - reflexivity.
  - reflexivity.
  - reflexivity.
  - reflexivity.
  - reflexivity.
  - reflexivity.
  - reflexivity.
  - reflexivity.
  - reflexivity.
  - reflexivity.
  - reflexivity.
  - reflexivity.
  - reflexivity.
  - reflexivity.
  - intros payload meta. exists payload. reflexivity.
  - exists res. exact Hres.
Defined.

Lemma login_then_refresh_witness :
  exists res2 w2,
    refresh env "rt" (login env "default" ada_good None world).2
    = (Ok res2, w2)
    /\ id res2 = VStr "u1".
Proof.
  destruct (login_then_refresh env "default" ada_good None world
              {| accessToken := "signed.jwt"; refreshToken := "rt";
                 expires := 900000; id := VStr "u1" |}
              (login env "default" ada_good None world).2 local)
    as (res2 & w2 & Hrun & Hid & _).
  - vm_compute. reflexivity.
  - reflexivity.
  - reflexivity.
  - intros s Hs. apply list_elem_of_In in Hs.
    destruct Hs as [<- | [<- | [<- | [<- | []]]]]; discriminate.
  - intros u u' Hu Hu' Hid.
    apply list_elem_of_In in Hu. apply list_elem_of_In in Hu'.
    destruct Hu as [<- | [<- | [<- | [<- | []]]]];
      destruct Hu' as [<- | [<- | [<- | [<- | []]]]];
      first [reflexivity | discriminate Hid].
  - vm_compute. discriminate.
  - reflexivity.
  - intros user _. reflexivity.
  - intros payload meta. exists payload. reflexivity.
  - exists res2, w2. split; [exact Hrun | exact Hid].
Defined.

Lemma refresh_share_payload_witness :
  exists evs,
    trace (refresh env "rt-share" world).2 = trace world ++ evs
    /\ length evs = 1%nat.
Proof.
  destruct (refresh_share_payload env "rt-share" world
              (refresh_columns
                 (session "rt-share" VNull (VStr "share-1"), None,
                  Some share1, Some role_viewer)))
    as [Htrace _].
  - reflexivity.
  - vm_compute. reflexivity.
  - reflexivity.
  - reflexivity.
  - eexists. split; [exact Htrace | reflexivity].
Defined.


(** The update of last_access rejects: refresh throws, and the old token
    is gone all the same. *)
Example refresh_failing_last_access_rotates :
  let out := refresh_with last_access_fails env "rt-u1" world in
  out.1 = Throw (ServiceError "last_access")
  /\ map s_token (directus_sessions out.2)
     = map (fun s => if decide (s_token s = "rt-u1")
                     then nanoid env (rng world) else s_token s)
         (directus_sessions world).
Proof. vm_compute. repeat split. Qed.

Lemma refresh_touches_last_access_witness :
  exists touched,
    directus_users (refresh env "rt-u1" world).2
    = map (touch_user (VStr "u1") touched) (directus_users world).
Proof.
  destruct (refresh_touches_last_access env "rt-u1" world
              {| accessToken := "signed.jwt"; refreshToken := "rt";
                 expires := 900000; id := VStr "u1" |}
              (refresh env "rt-u1" world).2)
    as (touched & _ & Husers & _).
  - vm_compute. reflexivity.
  - exists touched. exact Husers.
Defined.

Lemma refresh_expired_session_witness :
  exists w',
    refresh env "rt-u1" world_later = (Throw InvalidCredentialsException, w').
Proof.
  destruct (refresh_expired_session env "rt-u1" world_later) as (w' & Hrun & _).
  - intros s Hs _. apply list_elem_of_In in Hs.
    destruct Hs as [<- | [<- | [<- | [<- | []]]]]; reflexivity.
  - exists w'. exact Hrun.
Defined.

Lemma refresh_expired_share_witness :
  exists w',
    refresh env "rt-share" world_stale
    = (Throw InvalidCredentialsException, w').
Proof.
  destruct (refresh_expired_share env "rt-share" world_stale)
    as (w' & Hrun & _).
  - intros s Hs Ht. apply list_elem_of_In in Hs.
    destruct Hs as [<- | [<- | [<- | [<- | [<- | []]]]]]; try discriminate Ht.
    exists share_expired. split; [left |]. vm_compute. repeat split; discriminate.
  - intros s d Hs Hd _ _. apply list_elem_of_In in Hd.
    destruct Hd as [<- | []]. exists 500. split; [reflexivity |].
    vm_compute. reflexivity.
  - exists w'. exact Hrun.
Defined.

Lemma logout_failure_keeps_session_witness :
  (logout env_failing_logout "rt-u1" world).1 = Throw (ServiceError "logout")
  /\ store (logout env_failing_logout "rt-u1" world).2 = store world.
Proof.
  exact (logout_failure_keeps_session env_failing_logout "rt-u1" world
           (logout_columns (session "rt-u1" (VStr "u1") VNull, u1))
           eq_refl (ServiceError "logout") eq_refl).
Defined.

Lemma logout_then_refresh_witness :
  exists w'',
    refresh env "rt-u1" (logout env "rt-u1" world).2
    = (Throw InvalidCredentialsException, w'').
Proof.
  apply (logout_then_refresh env "rt-u1" world
           (logout_columns (session "rt-u1" (VStr "u1") VNull, u1))).
  - reflexivity.
  - vm_compute. reflexivity.
Defined.

Lemma verifyPassword_unknown_user_witness :
  exists w',
    verifyPassword env (VStr "nobody") "correct horse" world
    = (Throw InvalidCredentialsException, w').
Proof.
  destruct (verifyPassword_unknown_user env (VStr "nobody") "correct horse"
              world) as (w' & Hrun & _).
  - intros u Hu (_ & _ & Hid). apply list_elem_of_In in Hu.
    destruct Hu as [<- | [<- | [<- | [<- | []]]]]; discriminate Hid.
  - exists w'. exact Hrun.
Defined.

Lemma verifyPassword_delegates_witness :
  (verifyPassword env (VStr "u3") "correct horse" world).1 = Ok tt
  /\ (verifyPassword env (VStr "u3") "wrong" world).1
     = Throw InvalidCredentialsException.
Proof.
  assert (forall u', u' ∈ directus_users world ->
                     sql_eq (u_id u') (VStr "u3") -> u' = u3) as Huniq.
  { intros u' Hu' (_ & _ & Hid). apply list_elem_of_In in Hu'.
    destruct Hu' as [<- | [<- | [<- | [<- | []]]]];
      first [reflexivity | discriminate Hid]. }
  assert (u3 ∈ directus_users world) as Hin.
  { apply list_elem_of_In. vm_compute. tauto. }
  assert (sql_eq (u_id u3) (VStr "u3")) as Hid.
  { vm_compute. repeat split; discriminate. }
  split.
  - exact (proj1 (verifyPassword_delegates env (VStr "u3") "correct horse"
                    world u3 local Hin Hid Huniq eq_refl)).
  - exact (proj1 (verifyPassword_delegates env (VStr "u3") "wrong"
                    world u3 local Hin Hid Huniq eq_refl)).
Defined.

End DeploymentExtras.
